(** * NameMatcher: the swipe client

    A shallow embedding of the browser client of NameMatcher:
    - [src/frontend/src/components/SwipeCard.tsx], the card widget;
    - [src/frontend/src/App.tsx], the application controller, with its two
      older variants (the 231-line one that fetches [/matches] and the
      183-line one without an aggregate view).

    React state is a record, handlers are programs of a small free monad
    [Async] whose [Await] nodes are the suspension points of the source
    ([await axios...]), and the browser is an event loop that starts handlers
    on user input and resumes them when a request settles. *)

From Stdlib Require Import ZArith QArith List String Bool Lia.
Import ListNotations.

Local Open Scope Z_scope.

(** ** JavaScript numbers, as far as [<] and [>] see them

    Every finite double is a rational, and comparison of doubles is
    comparison of their values; the three other doubles are kept apart. *)

Inductive number : Type :=
| Fin (q : Q)
| PInf
| NInf
| NaN.

Definition of_Z (z : Z) : number := Fin (inject_Z z).

(** [a < b] of JavaScript: false as soon as one side is NaN. *)
Definition js_lt (a b : number) : bool :=
  match a, b with
  | NaN, _ | _, NaN => false
  | PInf, _ => false
  | _, NInf => false
  | NInf, _ => true
  | _, PInf => true
  | Fin p, Fin q => negb (Qle_bool q p)
  end.

(** [a > b] of JavaScript. *)
Definition js_gt (a b : number) : bool := js_lt b a.

(** The order the booleans decide. *)
Definition num_lt (a b : number) : Prop :=
  match a, b with
  | Fin p, Fin q => (p < q)%Q
  | NInf, Fin _ | NInf, PInf | Fin _, PInf => True
  | _, _ => False
  end.

(** ** Data model (the interfaces of App.tsx) *)

Record User : Type := mkUser {
  u_id : Z;
  u_name : string
}.

Record Name : Type := mkName {
  n_id : Z;
  n_name : string;
  gender : option string;
  origin : option string;
  meaning : option string
}.

(** ['like' | 'dislike' | 'maybe'] *)
Inductive Direction : Type := like | dislike | maybe.

(** ['swipe' | 'matches'] *)
Inductive View : Type := swipe | matches.

Record Dashboard : Type := mkDashboard {
  d_matches : list Name;
  kyle_likes : list Name;
  emily_likes : list Name;
  rejected : list Name
}.

(** ** SwipeCard.tsx *)

Module SwipeCard.

(** The second argument of [onDragEnd]: only [info.offset.x] is read. *)
Record DragInfo : Type := mkInfo { offset_x : number }.

(** What the user can do to one card. *)
Inductive Input : Type :=
| DragEnd (info : DragInfo)
| ClickDislike
| ClickMaybe
| ClickLike.

Section Widget.
(** The widget is generic in what its callback does: [Act] is the type of
    the callback's effect and [skip] the effect of doing nothing. *)
Variable Act : Type.
Variable skip : Act.
Variable onSwipe : Direction -> Act.

Definition handleDragEnd (info : DragInfo) : Act :=
  if js_gt (offset_x info) (of_Z 100) then onSwipe like
  else if js_lt (offset_x info) (of_Z (-100)) then onSwipe dislike
  else skip.

(** The four handlers the component installs: [onDragEnd] and the
    [onClick] of the three buttons. *)
Definition handle (i : Input) : Act :=
  match i with
  | DragEnd info => handleDragEnd info
  | ClickDislike => onSwipe dislike
  | ClickMaybe => onSwipe maybe
  | ClickLike => onSwipe like
  end.
End Widget.

Arguments handleDragEnd {Act} skip onSwipe info.
Arguments handle {Act} skip onSwipe i.

(** The calls a drag release makes to [onSwipe], in order: the widget run
    with a callback that records its argument. *)
Definition drag_calls (info : DragInfo) : list Direction :=
  handleDragEnd [] (fun d => [d]) info.

Definition input_calls (i : Input) : list Direction :=
  handle [] (fun d => [d]) i.

End SwipeCard.

(** ** The HTTP interface the controller consumes *)

(** The body of [POST /swipe]. *)
Record SwipeBody : Type := mkBody {
  user_id : Z;
  name_id : Z;
  decision : Direction
}.

Inductive Request : Type :=
| GetUsers
| GetDashboard
| GetRecommendations (uid : Z)
| PostSwipe (body : SwipeBody)
| PostGenerate.

(** [res.data] of each request, for a server that honours its schema. *)
Definition Data (r : Request) : Type :=
  match r with
  | GetUsers => list User
  | GetDashboard => Dashboard
  | GetRecommendations _ => list Name
  | PostSwipe _ => unit
  | PostGenerate => option string
  end.

(** What a rejected request throws: [e.response?.data?.detail] and
    [e.message]. *)
Record AxiosError : Type := mkError {
  detail : option string;
  message : option string
}.

(** What a [catch] of the controller can receive. *)
Inductive Thrown : Type :=
| Axios (e : AxiosError)
| TypeError.

Inductive Result (T : Type) : Type :=
| Fulfilled (data : T)
| Rejected (err : AxiosError).

Arguments Fulfilled {T} data.
Arguments Rejected {T} err.

(** ** React state of [App] *)

Record AppState : Type := mkState {
  users : list User;
  currentUser : option User;
  names : list Name;
  loading : bool;
  view : View;
  dashboard : option Dashboard
}.

Definition initialState : AppState :=
  mkState [] None [] false swipe None.

(** The setters of [useState]; [setNames] takes an updater, as in
    [setNames(prev => prev.slice(1))], and a plain value [v] is the constant
    updater. *)
Definition setUsers (v : list User) (s : AppState) : AppState :=
  mkState v (currentUser s) (names s) (loading s) (view s) (dashboard s).

Definition setCurrentUser (v : option User) (s : AppState) : AppState :=
  mkState (users s) v (names s) (loading s) (view s) (dashboard s).

Definition setNames (upd : list Name -> list Name) (s : AppState) : AppState :=
  mkState (users s) (currentUser s) (upd (names s)) (loading s) (view s)
          (dashboard s).

Definition setLoading (v : bool) (s : AppState) : AppState :=
  mkState (users s) (currentUser s) (names s) v (view s) (dashboard s).

Definition setView (v : View) (s : AppState) : AppState :=
  mkState (users s) (currentUser s) (names s) (loading s) v (dashboard s).

Definition setDashboard (v : option Dashboard) (s : AppState) : AppState :=
  mkState (users s) (currentUser s) (names s) (loading s) (view s) v.

(** [a.slice(start)] and [a.slice(start, end)] for indices in range. *)
Definition slice_from {A : Type} (start : nat) (a : list A) : list A :=
  skipn start a.

Definition slice {A : Type} (start stop : nat) (a : list A) : list A :=
  firstn (stop - start) (skipn start a).

(** [a.map((x, index) => f x index)] *)
Fixpoint map_from {A B : Type} (f : A -> Z -> B) (index : Z) (a : list A)
  : list B :=
  match a with
  | [] => []
  | x :: rest => f x index :: map_from f (index + 1) rest
  end.

Definition mapi {A B : Type} (f : A -> Z -> B) (a : list A) : list B :=
  map_from f 0 a.

Definition length_Z {A : Type} (a : list A) : Z := Z.of_nat (List.length a).

(** ** Asynchronous handlers

    A handler is a tree of its effects.  [Await r k] issues the request [r]
    and suspends; [k] is the rest of the [async] function, its [try]/[catch]
    turned into the two cases of the result.  [Call p k] is a call of an
    [async] function that is not awaited: [p] runs up to its first
    suspension, then the caller goes on with [k]. *)

Inductive Async : Type :=
| Done : Async
| Update : (AppState -> AppState) -> Async -> Async
| ConsoleError : option string -> Thrown -> Async -> Async
| Alert : string -> Async -> Async
| Await : forall r : Request, (Result (Data r) -> Async) -> Async
| Call : Async -> Async -> Async.

Definition fetchUsers : Async :=
  Await GetUsers (fun res =>
    match res with
    | Fulfilled data => Update (setUsers data) Done
    | Rejected err => ConsoleError None (Axios err) Done
    end).

Definition fetchDashboard : Async :=
  Await GetDashboard (fun res =>
    match res with
    | Fulfilled data => Update (setDashboard (Some data)) Done
    | Rejected e => ConsoleError None (Axios e) Done
    end).

(** [currentUser] is the value the closure captured at render time. *)
Definition fetchRecommendations (currentUser : option User) : Async :=
  match currentUser with
  | None => Done
  | Some u =>
      Update (setLoading true)
        (Await (GetRecommendations (u_id u)) (fun res =>
           match res with
           | Fulfilled data =>
               Update (setNames (fun _ => data)) (Update (setLoading false) Done)
           | Rejected err =>
               ConsoleError None (Axios err) (Update (setLoading false) Done)
           end))
  end.

Definition isNull {A : Type} (o : option A) : bool :=
  match o with
  | None => true
  | Some _ => false
  end.

(** [currentUser] and [names] are the values of the render whose closure is
    invoked; reading [.id] of a missing user or head inside the [try] would
    throw a TypeError into the [catch]. *)
Definition handleSwipe (currentUser : option User) (names : list Name)
  (direction : Direction) : Async :=
  if isNull currentUser || (length_Z names =? 0) then Done
  else
    match currentUser, nth_error names 0 with
    | Some u, Some currentName =>
        Await (PostSwipe {| user_id := u_id u;
                            name_id := n_id currentName;
                            decision := direction |})
          (fun res =>
             match res with
             | Fulfilled _ =>
                 (* Remove swiped name *)
                 Update (setNames (fun prev => slice_from 1 prev))
                   (* Fetch more if low *)
                   (if length_Z names <? 3
                    then Call (fetchRecommendations currentUser) Done
                    else Done)
             | Rejected err =>
                 ConsoleError (Some "Failed to submit swipe"%string) (Axios err)
                   Done
             end)
    | _, _ =>
        ConsoleError (Some "Failed to submit swipe"%string) TypeError Done
    end.

(** JavaScript's [a || b] on optional strings: the empty string is falsy. *)
Definition or_else (a : option string) (b : option string) : option string :=
  match a with
  | Some EmptyString | None => b
  | Some _ => a
  end.

Definition show (o : option string) : string :=
  match o with
  | Some m => m
  | None => "undefined"%string
  end.

(** The [onClick] of the Generate button. *)
Definition generate (currentUser : option User) : Async :=
  Update (setLoading true)
    (Await PostGenerate (fun res =>
       match res with
       | Fulfilled msg =>
           Alert (show msg)
             (Call (fetchRecommendations currentUser)
                (Update (setLoading false) Done))
       | Rejected e =>
           Alert (String.append "Generation failed: "
                    (show (or_else (or_else (detail e) (message e))
                                   (Some "Unknown error"%string))))
             (ConsoleError None (Axios e) (Update (setLoading false) Done))
       end)).

(** ** Rendering *)

(** The props of one [<SwipeCard>]. *)
Record CardProps : Type := mkCard {
  key : Z;
  card_name : string;
  onSwipe : Direction -> Async
}.

(** [() => { }] *)
Definition noop : Direction -> Async := fun _ => Done.

(** The cards of the swipe view in DOM order: the cards are absolutely
    positioned siblings, so the last one of the list is painted on top. *)
Definition cards (s : AppState) : list CardProps :=
  mapi (fun name index =>
          mkCard (n_id name) (n_name name)
            (if index =? Z.min (length_Z (names s)) 2 - 1
             then handleSwipe (currentUser s) (names s)
             else noop))
       (rev (slice 0 2 (names s))).

(** The 183-line variant of the controller wires the callback by a constant
    index; its [handleSwipe] and [fetchRecommendations] are those above. *)
Module Legacy.

Definition cards (s : AppState) : list CardProps :=
  mapi (fun name index =>
          mkCard (n_id name) (n_name name)
            (if index =? 1
             then handleSwipe (currentUser s) (names s)
             else noop))
       (rev (slice 0 2 (names s))).

End Legacy.

Inductive Content : Type :=
| Spinner
| Cards (cs : list CardProps)
| NoMoreNames
| Aggregate (d : option Dashboard).

Inductive Screen : Type :=
| ProfileSelection (profiles : list User)
| Main (who : string) (active : View) (content : Content).

Definition render (s : AppState) : Screen :=
  match currentUser s with
  | None => ProfileSelection (users s)
  | Some u =>
      Main (u_name u) (view s)
        match view s with
        | swipe =>
            if loading s && (length_Z (names s) =? 0) then Spinner
            else if length_Z (names s) >? 0 then Cards (cards s)
            else NoMoreNames
        | matches => Aggregate (dashboard s)
        end
  end.

(** ** The event loop *)

(** What the user can do to the page. *)
Inductive UserEvent : Type :=
| ClickProfile (i : nat)
| ClickView (v : View)
| ClickGenerate
| ClickSwitch
| OnCard (i : nat) (input : SwipeCard.Input).

(** The handler a card of the list [cs] runs on [input]. *)
Definition card_handler (cs : list CardProps) (i : nat)
  (input : SwipeCard.Input) : Async :=
  match nth_error cs i with
  | Some c => SwipeCard.handle Done (onSwipe c) input
  | None => Done
  end.

(** The handler the rendered page runs on a user event; an element that is
    not on the page cannot be used. *)
Definition onEvent (s : AppState) (e : UserEvent) : Async :=
  match render s with
  | ProfileSelection profiles =>
      match e with
      | ClickProfile i =>
          match nth_error profiles i with
          | Some user => Update (setCurrentUser (Some user)) Done
          | None => Done
          end
      | _ => Done
      end
  | Main _ _ content =>
      match e with
      | ClickProfile _ => Done
      | ClickView v => Update (setView v) Done
      | ClickGenerate => generate (currentUser s)
      | ClickSwitch => Update (setCurrentUser None) Done
      | OnCard i input =>
          match content with
          | Cards cs => card_handler cs i input
          | _ => Done
          end
      end
  end.

(** A request in flight, with the suspended rest of its handler. *)
Record Pending : Type := mkPending {
  p_req : Request;
  p_cont : Result (Data p_req) -> Async
}.

Record World : Type := mkWorld {
  app : AppState;
  inflight : list Pending;
  sent : list Request;
  console : list (option string * Thrown);
  alerts : list string
}.

Definition initialWorld : World := mkWorld initialState [] [] [] [].

(** Run a handler up to its suspension. *)
Fixpoint run (p : Async) (w : World) : World :=
  match p with
  | Done => w
  | Update f k =>
      run k (mkWorld (f (app w)) (inflight w) (sent w) (console w) (alerts w))
  | ConsoleError text err k =>
      run k (mkWorld (app w) (inflight w) (sent w)
                     (console w ++ [(text, err)]) (alerts w))
  | Alert text k =>
      run k (mkWorld (app w) (inflight w) (sent w) (console w)
                     (alerts w ++ [text]))
  | Await r k =>
      mkWorld (app w) (inflight w ++ [mkPending r k]) (sent w ++ [r])
              (console w) (alerts w)
  | Call p k => run k (run p w)
  end.

Definition User_eqb (a b : User) : bool :=
  (u_id a =? u_id b) && String.eqb (u_name a) (u_name b).

Definition same_user (a b : option User) : bool :=
  match a, b with
  | None, None => true
  | Some x, Some y => User_eqb x y
  | _, _ => false
  end.

Definition View_eqb (a b : View) : bool :=
  match a, b with
  | swipe, swipe | matches, matches => true
  | _, _ => false
  end.

(** The two [useEffect]s with a dependency: each runs after a render in
    which its dependency changed.  [currentUser] only ever changes between
    null and an element of [users], so comparing by value agrees with the
    identity comparison of React. *)
Definition effects (before after : AppState) : Async :=
  Call (if same_user (currentUser before) (currentUser after) then Done
        else if isNull (currentUser after) then Done
             else fetchRecommendations (currentUser after))
       (if View_eqb (view before) (view after) then Done
        else match view after with
             | matches => fetchDashboard
             | swipe => Done
             end).

(** Run a handler, re-render, run the effects. *)
Definition dispatch (p : Async) (w : World) : World :=
  let w' := run p w in
  run (effects (app w) (app w')) w'.

(** The effects of the first render: all three run. *)
Definition mount : Async :=
  Call fetchUsers
    (Call (if isNull (currentUser initialState) then Done
           else fetchRecommendations (currentUser initialState))
          (match view initialState with
           | matches => fetchDashboard
           | swipe => Done
           end)).

Definition remove_nth {A : Type} (i : nat) (l : list A) : list A :=
  firstn i l ++ skipn (S i) l.

(** The network: what each request is answered with. *)
Definition Network : Type := forall r : Request, Result (Data r).

Inductive Event : Type :=
| Mount
| Input (e : UserEvent)
| Settle (i : nat) (net : Network).

(** The [i]-th request in flight settles and its handler resumes. *)
Definition settle (i : nat) (net : Network) (w : World) : World :=
  match nth_error (inflight w) i with
  | None => w
  | Some p =>
      dispatch (p_cont p (net (p_req p)))
        (mkWorld (app w) (remove_nth i (inflight w)) (sent w) (console w)
                 (alerts w))
  end.

Definition step (w : World) (e : Event) : World :=
  match e with
  | Mount => run mount w
  | Input e => dispatch (onEvent (app w) e) w
  | Settle i net => settle i net w
  end.

Definition steps (w : World) (es : list Event) : World :=
  fold_left step es w.

(** A decision submission: the [handleSwipe] of the current render is
    invoked with [direction]. *)
Definition submit (direction : Direction) (w : World) : World :=
  dispatch (handleSwipe (currentUser (app w)) (names (app w)) direction) w.

(** The requests issued between two worlds. *)
Definition issued (w w' : World) : list Request :=
  skipn (List.length (sent w)) (sent w').

(** A network that answers every request with success, the given data, or
    with the given error. *)
Definition answer (us : list User) (d : Dashboard) (ns : list Name)
  (msg : option string) : Network :=
  fun r =>
    match r with
    | GetUsers => Fulfilled us
    | GetDashboard => Fulfilled d
    | GetRecommendations _ => Fulfilled ns
    | PostSwipe _ => Fulfilled tt
    | PostGenerate => Fulfilled msg
    end.

Definition failing (err : AxiosError) : Network :=
  fun r => Rejected err.

(** ** The scenario of the specification *)

Definition Kyle : User := mkUser 1 "Kyle".
Definition Emily : User := mkUser 2 "Emily".
Definition Ava : Name := mkName 10 "Ava" None None None.
Definition Liam : Name := mkName 11 "Liam" None None None.
Definition Noah : Name := mkName 12 "Noah" None None None.

Definition swiping (u : User) (q : list Name) : World :=
  mkWorld (mkState [Kyle; Emily] (Some u) q false swipe None) [] [] [] [].

(** ** The aggregate view of App.tsx

    The four columns of the matches view, each the [n.id] keys and [n.name]
    texts of a list of the dashboard, and the note under the first one. *)

Record AggregateView : Type := mkAggregate {
  matches_column : list (Z * string);
  no_matches_yet : bool;
  kyle_column : list (Z * string);
  emily_column : list (Z * string);
  rejected_column : list (Z * string)
}.

Definition entries (l : list Name) : list (Z * string) :=
  map (fun n => (n_id n, n_name n)) l.

(** [dashboard?.matches.map(...)] renders nothing while [dashboard] is null,
    and [dashboard?.matches.length === 0] is then [undefined === 0]. *)
Definition aggregate_view (dashboard : option Dashboard) : AggregateView :=
  match dashboard with
  | None => mkAggregate [] false [] [] []
  | Some d =>
      mkAggregate (entries (d_matches d)) (length_Z (d_matches d) =? 0)
                  (entries (kyle_likes d)) (entries (emily_likes d))
                  (entries (rejected d))
  end.

(** ** Executions *)

(** The requests a handler leaves in flight, with their continuations. *)
Definition spawned (p : Async) : list Pending := inflight (run p initialWorld).

(** The five [async] functions of the controller, as the page can start
    them. *)
Inductive handler : Async -> Prop :=
| handler_fetchUsers : handler fetchUsers
| handler_fetchDashboard : handler fetchDashboard
| handler_fetchRecommendations (u : User) :
    handler (fetchRecommendations (Some u))
| handler_handleSwipe (cu : option User) (ns : list Name) (d : Direction) :
    handler (handleSwipe cu ns d)
| handler_generate (cu : option User) : handler (generate cu).

(** A request in flight that one of them suspended on. *)
Definition known (p : Pending) : Prop :=
  exists prog, handler prog /\ In p (spawned prog).

(** The requests whose handler holds the loading flag. *)
Definition is_loader (p : Pending) : bool :=
  match p_req p with
  | GetRecommendations _ | PostGenerate => true
  | _ => false
  end.

(** The programs the page starts at an event: a handler, a setter of the
    user or of the view, or calls of these. *)
Inductive toplevel : Async -> Prop :=
| toplevel_done : toplevel Done
| toplevel_user (x : option User) :
    toplevel (Update (setCurrentUser x) Done)
| toplevel_view (v : View) : toplevel (Update (setView v) Done)
| toplevel_handler (p : Async) : handler p -> toplevel p
| toplevel_call (p k : Async) :
    toplevel p -> toplevel k -> toplevel (Call p k).

(** What every world of an execution satisfies: the requests in flight
    were suspended by the controller's handlers, and a raised loading flag
    has a request in flight whose handler lowers it. *)
Definition invariant (w : World) : Prop :=
  Forall known (inflight w) /\
  (loading (app w) = true ->
   Exists (fun p => is_loader p = true) (inflight w)).

(** The worlds the page can be in: any sequence of events from the first
    render. *)
Definition reachable (w : World) : Prop :=
  exists es, w = steps initialWorld es.

(** A decision and the settlement of its POST, which is the request issued
    last, and a run of decisions, each settled before the next. *)
Definition decide (net : Network) (w : World) (d : Direction) : World :=
  step (submit d w) (Settle (List.length (inflight w)) net).

Definition decide_all (net : Network) (w : World) (ds : list Direction)
  : World :=
  fold_left (decide net) ds w.

(** The bodies of the decisions among requests. *)
Definition posted (rs : list Request) : list SwipeBody :=
  flat_map (fun r => match r with
                     | PostSwipe b => [b]
                     | _ => []
                     end) rs.

(** The position of the front card in the DOM order. *)
Definition front (s : AppState) : nat := List.length (cards s) - 1.

(** ** Tactics *)

(** Case analysis of a known request: its handler, then the request it
    suspended on. *)
Ltac known_cases H :=
  let prog := fresh "prog" in
  let Hh := fresh "Hh" in
  let Hin := fresh "Hin" in
  destruct H as (prog & Hh & Hin);
  destruct Hh as [| | u | [u |] [| n rest] d | cu];
  unfold spawned in Hin; cbn in Hin;
  try contradiction;
  destruct Hin as [Hin | []]; subst.

(** Case analysis of the branches of a resumed handler. *)
Ltac split_branches :=
  repeat (match goal with
          | |- context [if ?b then _ else _] => destruct b
          | |- context [fetchRecommendations ?c] => is_var c; destruct c
          end; cbn).

(** * Properties *)

(** ** Comparison of numbers *)

Lemma js_lt_spec (a b : number) : js_lt a b = true <-> num_lt a b.
Proof.
  destruct a as [p| | |], b as [q| | |]; simpl;
    try (split; [discriminate | contradiction]);
    try (split; trivial).
  - rewrite negb_true_iff. intros H. apply Qnot_le_lt. intros Hle.
    apply Qle_bool_iff in Hle. congruence.
  - intros H. rewrite negb_true_iff.
    destruct (Qle_bool q p) eqn:E; trivial.
    apply Qle_bool_iff in E. destruct (Qlt_not_le _ _ H E).
Qed.

Lemma js_gt_spec (a b : number) : js_gt a b = true <-> num_lt b a.
Proof. unfold js_gt. apply js_lt_spec. Qed.

Lemma js_lt_false (a b : number) : js_lt a b = false <-> ~ num_lt a b.
Proof.
  rewrite <- js_lt_spec. destruct (js_lt a b); split; intros H;
    try discriminate; trivial.
  destruct H; trivial.
Qed.

Lemma num_lt_trans (a b c : number) : num_lt a b -> num_lt b c -> num_lt a c.
Proof.
  destruct a, b, c; simpl; trivial; try contradiction.
  apply Qlt_trans.
Qed.

Lemma num_lt_irrefl (a : number) : ~ num_lt a a.
Proof. destruct a; simpl; auto. apply Qlt_irrefl. Qed.

(** The two thresholds exclude each other. *)
Lemma thresholds_exclusive (x : number) :
  num_lt (of_Z 100) x -> num_lt x (of_Z (-100)) -> False.
Proof.
  intros H1 H2.
  assert (H : num_lt (of_Z 100) (of_Z (-100)))
    by (eapply num_lt_trans; eassumption).
  simpl in H. discriminate H.
Qed.

(** ** The card widget *)

Module SwipeCardFacts.
Import SwipeCard.

Section AnyCallback.
Variable Act : Type.
Variable skip : Act.
Variable onSwipe : Direction -> Act.

Lemma handleDragEnd_like (info : DragInfo) :
  num_lt (of_Z 100) (offset_x info) ->
  handleDragEnd skip onSwipe info = onSwipe like.
Proof.
  intros H. unfold handleDragEnd.
  apply js_gt_spec in H. rewrite H. reflexivity.
Qed.

Lemma handleDragEnd_dislike (info : DragInfo) :
  num_lt (offset_x info) (of_Z (-100)) ->
  handleDragEnd skip onSwipe info = onSwipe dislike.
Proof.
  intros H. unfold handleDragEnd.
  destruct (js_gt (offset_x info) (of_Z 100)) eqn:E.
  - apply js_gt_spec in E. destruct (thresholds_exclusive _ E H).
  - apply js_lt_spec in H. rewrite H. reflexivity.
Qed.

Lemma handleDragEnd_rest (info : DragInfo) :
  ~ num_lt (of_Z 100) (offset_x info) ->
  ~ num_lt (offset_x info) (of_Z (-100)) ->
  handleDragEnd skip onSwipe info = skip.
Proof.
  intros H1 H2. unfold handleDragEnd, js_gt.
  apply js_lt_false in H1. apply js_lt_false in H2.
  rewrite H1, H2. reflexivity.
Qed.
End AnyCallback.

(** C2. A drag release with horizontal offset [x] calls [onSwipe] exactly
    once with [like] when [x > 100], exactly once with [dislike] when
    [x < -100], and not at all otherwise; it never calls it with [maybe]. *)
Theorem drag_release_classified (info : DragInfo) :
  (num_lt (of_Z 100) (offset_x info) -> drag_calls info = [like]) /\
  (num_lt (offset_x info) (of_Z (-100)) -> drag_calls info = [dislike]) /\
  (~ num_lt (of_Z 100) (offset_x info) ->
   ~ num_lt (offset_x info) (of_Z (-100)) -> drag_calls info = []) /\
  ~ In maybe (drag_calls info).
Proof.
  unfold drag_calls. repeat split.
  - apply handleDragEnd_like.
  - apply handleDragEnd_dislike.
  - apply handleDragEnd_rest.
  - unfold handleDragEnd.
    destruct (js_gt _ _); [| destruct (js_lt _ _)]; simpl; intros H;
      repeat (destruct H as [H | H]; try discriminate H); trivial.
Qed.

Lemma drag_release_classified_witness :
  drag_calls (mkInfo (of_Z 150)) = [like] /\
  drag_calls (mkInfo (of_Z (-150))) = [dislike] /\
  drag_calls (mkInfo (of_Z 50)) = [] /\
  drag_calls (mkInfo (of_Z (-50))) = [].
Proof.
  split; [| split; [| split]].
  - apply (proj1 (drag_release_classified (mkInfo (of_Z 150)))).
    reflexivity.
  - apply (proj1 (proj2 (drag_release_classified (mkInfo (of_Z (-150)))))).
    reflexivity.
  - apply (proj1 (proj2 (proj2 (drag_release_classified (mkInfo (of_Z 50))))));
      simpl; discriminate.
  - apply (proj1 (proj2 (proj2
             (drag_release_classified (mkInfo (of_Z (-50)))))));
      simpl; discriminate.
Defined.

(** C10. A drag released at exactly +100 or exactly -100 is inside the dead
    zone: whatever the callback, [onSwipe] is not called. *)
Theorem drag_release_at_threshold (q : Q) :
  (q == inject_Z 100 \/ q == inject_Z (-100))%Q ->
  drag_calls (mkInfo (Fin q)) = [] /\
  forall (Act : Type) (skip : Act) (onSwipe : Direction -> Act),
    handleDragEnd skip onSwipe (mkInfo (Fin q)) = skip.
Proof.
  intros H.
  assert (H1 : ~ num_lt (of_Z 100) (Fin q)).
  { simpl. destruct H as [H | H]; rewrite H.
    - apply Qlt_irrefl.
    - discriminate. }
  assert (H2 : ~ num_lt (Fin q) (of_Z (-100))).
  { simpl. destruct H as [H | H]; rewrite H.
    - discriminate.
    - apply Qlt_irrefl. }
  split; [unfold drag_calls |]; intros; apply handleDragEnd_rest; assumption.
Qed.

Lemma drag_release_at_threshold_witness :
  drag_calls (mkInfo (Fin (inject_Z 100))) = [] /\
  drag_calls (mkInfo (Fin (inject_Z (-100)))) = [].
Proof.
  split.
  - apply (drag_release_at_threshold (inject_Z 100)).
    left. reflexivity.
  - apply (drag_release_at_threshold (inject_Z (-100))).
    right. reflexivity.
Defined.

End SwipeCardFacts.

(** ** The event loop: bookkeeping *)

Lemma User_eqb_refl (u : User) : User_eqb u u = true.
Proof. unfold User_eqb. now rewrite Z.eqb_refl, String.eqb_refl. Qed.

Lemma same_user_refl (o : option User) : same_user o o = true.
Proof. destruct o; simpl; trivial. apply User_eqb_refl. Qed.

Lemma View_eqb_refl (v : View) : View_eqb v v = true.
Proof. now destruct v. Qed.

(** Effects do not run when their dependencies are what they were. *)
Lemma effects_idle (s s' : AppState) (w : World) :
  currentUser s' = currentUser s -> view s' = view s ->
  run (effects s s') w = w.
Proof.
  intros Hu Hv. unfold effects.
  now rewrite Hu, Hv, same_user_refl, View_eqb_refl.
Qed.

Lemma dispatch_keep (p : Async) (w : World) :
  currentUser (app (run p w)) = currentUser (app w) ->
  view (app (run p w)) = view (app w) ->
  dispatch p w = run p w.
Proof. intros Hu Hv. unfold dispatch. now apply effects_idle. Qed.

Lemma nth_error_last {A : Type} (l : list A) (x : A) :
  nth_error (l ++ [x]) (List.length l) = Some x.
Proof. induction l; simpl; trivial. Qed.

Lemma remove_nth_last {A : Type} (l : list A) (x : A) :
  remove_nth (List.length l) (l ++ [x]) = l.
Proof.
  unfold remove_nth. induction l as [| y l IH]; simpl; trivial.
  simpl in IH. now rewrite IH.
Qed.

Lemma skipn_length_app {A : Type} (l l' : list A) :
  skipn (List.length l) (l ++ l') = l'.
Proof. induction l; simpl; trivial. Qed.

Lemma issued_nothing (l : list Request) : skipn (List.length l) l = [].
Proof. induction l; simpl; trivial. Qed.

(** The request issued last settles: its handler resumes on the answer. *)
Lemma settle_last (s : AppState) (l : list Pending) (se : list Request)
  (c : list (option string * Thrown)) (a : list string)
  (r : Request) (k : Result (Data r) -> Async) (net : Network) :
  settle (List.length l) net (mkWorld s (l ++ [mkPending r k]) se c a) =
  dispatch (k (net r)) (mkWorld s l se c a).
Proof.
  unfold settle. cbn [inflight app sent console alerts].
  now rewrite nth_error_last, remove_nth_last.
Qed.

Lemma nth_error_middle {A : Type} (l l' : list A) (x : A) :
  nth_error (l ++ x :: l') (List.length l) = Some x.
Proof. induction l; simpl; trivial. Qed.

Lemma remove_nth_middle {A : Type} (l l' : list A) (x : A) :
  remove_nth (List.length l) (l ++ x :: l') = l ++ l'.
Proof.
  unfold remove_nth. induction l as [| y l IH]; simpl; trivial.
  simpl in IH. now rewrite IH.
Qed.

(** Any request in flight can settle, not only the last one. *)
Lemma settle_middle (s : AppState) (l l' : list Pending) (se : list Request)
  (c : list (option string * Thrown)) (a : list string)
  (r : Request) (k : Result (Data r) -> Async) (net : Network) :
  settle (List.length l) net (mkWorld s (l ++ mkPending r k :: l') se c a) =
  dispatch (k (net r)) (mkWorld s (l ++ l') se c a).
Proof.
  unfold settle. cbn [inflight app sent console alerts].
  now rewrite nth_error_middle, remove_nth_middle.
Qed.

(** Past the guard, [handleSwipe] posts and suspends. *)
Lemma handleSwipe_cons (u : User) (n : Name) (rest : list Name)
  (d : Direction) :
  exists k,
    handleSwipe (Some u) (n :: rest) d =
    Await (PostSwipe (mkBody (u_id u) (n_id n) d)) k /\
    k (Fulfilled tt) =
      Update (setNames (fun prev => slice_from 1 prev))
        (if length_Z (n :: rest) <? 3
         then Call (fetchRecommendations (Some u)) Done
         else Done) /\
    forall err,
      k (Rejected err) =
      ConsoleError (Some "Failed to submit swipe"%string) (Axios err) Done.
Proof. eexists. repeat split. Qed.

(** The submission of a decision on a non-empty queue with a user: one POST
    is in flight and nothing else has changed. *)
Lemma submit_cons (w : World) (u : User) (n : Name) (rest : list Name)
  (d : Direction) :
  currentUser (app w) = Some u ->
  names (app w) = n :: rest ->
  exists k,
    submit d w =
    mkWorld (app w)
      (inflight w ++ [mkPending (PostSwipe (mkBody (u_id u) (n_id n) d)) k])
      (sent w ++ [PostSwipe (mkBody (u_id u) (n_id n) d)])
      (console w) (alerts w) /\
    k (Fulfilled tt) =
      Update (setNames (fun prev => slice_from 1 prev))
        (if length_Z (n :: rest) <? 3
         then Call (fetchRecommendations (Some u)) Done
         else Done) /\
    forall err,
      k (Rejected err) =
      ConsoleError (Some "Failed to submit swipe"%string) (Axios err) Done.
Proof.
  intros Hu Hn. unfold submit. rewrite Hu, Hn.
  destruct (handleSwipe_cons u n rest d) as (k & Hk & Hok & Herr).
  exists k. rewrite Hk. split; [| split; assumption].
  now rewrite dispatch_keep.
Qed.

(** What the resumed handler does to the world on success: the head of the
    queue of that moment goes, and a fetch starts when the captured queue
    was shorter than 3. *)
Lemma run_popped (u : User) (captured : list Name) (w : World) :
  run (Update (setNames (fun prev => slice_from 1 prev))
         (if length_Z captured <? 3
          then Call (fetchRecommendations (Some u)) Done
          else Done)) w =
  if length_Z captured <? 3
  then run (fetchRecommendations (Some u))
         (mkWorld (setNames (fun prev => slice_from 1 prev) (app w))
                  (inflight w) (sent w) (console w) (alerts w))
  else mkWorld (setNames (fun prev => slice_from 1 prev) (app w))
               (inflight w) (sent w) (console w) (alerts w).
Proof. destruct (length_Z captured <? 3); reflexivity. Qed.

(** A fetch of the queue up to its suspension. *)
Lemma run_fetchRecommendations (u : User) (w : World) :
  exists k,
    run (fetchRecommendations (Some u)) w =
    mkWorld (setLoading true (app w))
      (inflight w ++ [mkPending (GetRecommendations (u_id u)) k])
      (sent w ++ [GetRecommendations (u_id u)]) (console w) (alerts w) /\
    (forall data,
       k (Fulfilled data) =
       Update (setNames (fun _ => data)) (Update (setLoading false) Done)) /\
    (forall err,
       k (Rejected err) =
       ConsoleError None (Axios err) (Update (setLoading false) Done)).
Proof. eexists. repeat split. Qed.

Lemma dispatch_popped (u : User) (captured : list Name) (w : World) :
  dispatch (Update (setNames (fun prev => slice_from 1 prev))
              (if length_Z captured <? 3
               then Call (fetchRecommendations (Some u)) Done
               else Done)) w =
  if length_Z captured <? 3
  then run (fetchRecommendations (Some u))
         (mkWorld (setNames (fun prev => slice_from 1 prev) (app w))
                  (inflight w) (sent w) (console w) (alerts w))
  else mkWorld (setNames (fun prev => slice_from 1 prev) (app w))
               (inflight w) (sent w) (console w) (alerts w).
Proof.
  rewrite <- run_popped. apply dispatch_keep; rewrite run_popped;
    destruct (length_Z captured <? 3); reflexivity.
Qed.

(** Whatever happened while the POST was in flight, the resumed handler
    removes the head of the queue it finds and keeps the rest in order. *)
Lemma pop_at_resumption (u : User) (captured : list Name) (v : World) :
  names (app (dispatch
                (Update (setNames (fun prev => slice_from 1 prev))
                   (if length_Z captured <? 3
                    then Call (fetchRecommendations (Some u)) Done
                    else Done)) v)) =
  tl (names (app v)).
Proof.
  rewrite dispatch_popped.
  destruct (length_Z captured <? 3); cbn; now destruct (names (app v)).
Qed.

(** The head access of [handleSwipe] is behind its guard: no TypeError
    reaches the [catch]. *)
Lemma handleSwipe_head_safe (cu : option User) (ns : list Name)
  (d : Direction) (text : option string) (k : Async) :
  handleSwipe cu ns d <> ConsoleError text TypeError k.
Proof.
  destruct cu as [u |], ns as [| n rest]; discriminate.
Qed.

(** ** Decision submission *)

(** C3. On a non-empty queue, a decision submission whose POST succeeds
    removes the head element and nothing else: the queue before is the head
    followed by the queue after, in the same order. *)
Theorem submit_success_pops_head (w : World) (u : User) (n : Name)
  (rest : list Name) (d : Direction) (net : Network) :
  currentUser (app w) = Some u ->
  names (app w) = n :: rest ->
  net (PostSwipe (mkBody (u_id u) (n_id n) d)) = Fulfilled tt ->
  names (app (step (submit d w) (Settle (List.length (inflight w)) net))) =
  rest.
Proof.
  intros Hu Hn Hnet.
  destruct (submit_cons w u n rest d Hu Hn) as (k & Hs & Hok & _).
  rewrite Hs. cbn [step]. rewrite settle_last, Hnet, Hok, dispatch_popped.
  destruct (length_Z (n :: rest) <? 3); cbn; now rewrite Hn.
Qed.

Lemma submit_success_pops_head_witness :
  names (app (step (submit like (swiping Kyle [Ava; Liam; Noah]))
                   (Settle 0 (answer [] (mkDashboard [] [] [] []) [] None)))) =
  [Liam; Noah].
Proof.
  apply (submit_success_pops_head (swiping Kyle [Ava; Liam; Noah])
           Kyle Ava [Liam; Noah] like
           (answer [] (mkDashboard [] [] [] []) [] None));
    reflexivity.
Defined.

(** C4. On a non-empty queue, a decision submission whose POST fails leaves
    the application state, hence the queue, as it was, and issues no request
    besides the POST itself: no refill fetch. *)
Theorem submit_failure_keeps_queue (w : World) (u : User) (n : Name)
  (rest : list Name) (d : Direction) (net : Network) (err : AxiosError) :
  currentUser (app w) = Some u ->
  names (app w) = n :: rest ->
  net (PostSwipe (mkBody (u_id u) (n_id n) d)) = Rejected err ->
  let w' := step (submit d w) (Settle (List.length (inflight w)) net) in
  app w' = app w /\
  names (app w') = n :: rest /\
  inflight w' = inflight w /\
  issued w w' = [PostSwipe (mkBody (u_id u) (n_id n) d)].
Proof.
  intros Hu Hn Hnet.
  destruct (submit_cons w u n rest d Hu Hn) as (k & Hs & _ & Herr).
  rewrite Hs. cbn [step]. rewrite settle_last, Hnet, Herr.
  rewrite dispatch_keep by reflexivity. cbn.
  repeat split; trivial. unfold issued. cbn. apply skipn_length_app.
Qed.

Lemma submit_failure_keeps_queue_witness :
  let w := swiping Kyle [Ava; Liam] in
  let w' := step (submit like w)
                 (Settle 0 (failing (mkError None (Some "Network Error"%string))))
  in
  app w' = app w /\
  names (app w') = [Ava; Liam] /\
  inflight w' = inflight w /\
  issued w w' = [PostSwipe (mkBody 1 10 like)].
Proof.
  apply (submit_failure_keeps_queue (swiping Kyle [Ava; Liam])
           Kyle Ava [Liam] like
           (failing (mkError None (Some "Network Error"%string)))
           (mkError None (Some "Network Error"%string)));
    reflexivity.
Defined.

(** C8. With user [u] active and candidate [n] at the head of the queue,
    submitting the decision [d] issues exactly one request, the POST of
    [{user_id: u.id, name_id: n.id, decision: d}]. *)
Theorem submit_posts_body (w : World) (u : User) (n : Name)
  (rest : list Name) (d : Direction) :
  currentUser (app w) = Some u ->
  names (app w) = n :: rest ->
  issued w (submit d w) = [PostSwipe (mkBody (u_id u) (n_id n) d)].
Proof.
  intros Hu Hn.
  destruct (submit_cons w u n rest d Hu Hn) as (k & Hs & _).
  rewrite Hs. unfold issued. cbn. apply skipn_length_app.
Qed.

(** Kyle (id 1) swipes [like] on Ava (id 10). *)
Lemma submit_posts_body_witness :
  issued (swiping Kyle [Ava; Liam; Noah])
         (submit like (swiping Kyle [Ava; Liam; Noah])) =
  [PostSwipe {| user_id := 1; name_id := 10; decision := like |}].
Proof.
  apply (submit_posts_body (swiping Kyle [Ava; Liam; Noah])
           Kyle Ava [Liam; Noah] like);
    reflexivity.
Defined.

(** C9. Without a selected user, or on an empty queue, the submission
    handler does nothing for any direction: the world after it, with its
    state, its requests in flight and its log of issued requests, is the
    world before it. *)
Theorem submit_guarded (w : World) (d : Direction) :
  currentUser (app w) = None \/ names (app w) = [] ->
  handleSwipe (currentUser (app w)) (names (app w)) d = Done /\
  submit d w = w.
Proof.
  intros H.
  assert (Hd : handleSwipe (currentUser (app w)) (names (app w)) d = Done).
  { destruct H as [H | H]; rewrite H; trivial.
    now destruct (currentUser (app w)). }
  split; trivial. unfold submit. rewrite Hd.
  now rewrite dispatch_keep.
Qed.

Lemma submit_guarded_witness :
  submit maybe (swiping Kyle []) = swiping Kyle [] /\
  submit like initialWorld = initialWorld.
Proof.
  split.
  - apply (submit_guarded (swiping Kyle []) maybe). right. reflexivity.
  - apply (submit_guarded initialWorld like). left. reflexivity.
Defined.

(** ** Fetching the queue *)




(** ** The refill *)

(** After a successful submission the refill fetch is issued exactly when
    the queue the handler captured, the one before the pop, is shorter
    than 3. *)
Lemma refill_by_captured_length (w : World) (u : User) (n : Name)
  (rest : list Name) (d : Direction) (net : Network) :
  currentUser (app w) = Some u ->
  names (app w) = n :: rest ->
  net (PostSwipe (mkBody (u_id u) (n_id n) d)) = Fulfilled tt ->
  issued (submit d w)
         (step (submit d w) (Settle (List.length (inflight w)) net)) =
  if length_Z (n :: rest) <? 3 then [GetRecommendations (u_id u)] else [].
Proof.
  intros Hu Hn Hnet.
  destruct (submit_cons w u n rest d Hu Hn) as (k & Hs & Hok & _).
  rewrite Hs. cbn [step]. rewrite settle_last, Hnet, Hok, dispatch_popped.
  unfold issued.
  destruct (length_Z (n :: rest) <? 3); cbn.
  - apply skipn_length_app.
  - apply issued_nothing.
Qed.

(** C1. Kyle likes Ava at the head of the queue [Ava; Liam; Noah] and the
    POST succeeds: the queue after the pop is [Liam; Noah], of length 2,
    which is less than 3, and no refill fetch has been issued; the POST is
    the only request sent and nothing is in flight. *)
Theorem refill_skipped_at_three :
  let w := steps (swiping Kyle [Ava; Liam; Noah])
             [Input (OnCard 1 SwipeCard.ClickLike);
              Settle 0 (answer [] (mkDashboard [] [] [] []) [] None)] in
  names (app w) = [Liam; Noah] /\
  (length_Z (names (app w)) <? 3) = true /\
  sent w = [PostSwipe (mkBody 1 10 like)] /\
  inflight w = [].
Proof. repeat split. Qed.

(** ** Switching profile *)

(** C5, as the controller does it. From any state with an active user,
    Switch sets the active user to none and the page becomes the profile
    selection; the candidate queue is kept as it was, and no request is
    issued. *)
Theorem switch_clears_user_only (w : World) (u : User) :
  currentUser (app w) = Some u ->
  let w' := step w (Input ClickSwitch) in
  currentUser (app w') = None /\
  render (app w') = ProfileSelection (users (app w)) /\
  names (app w') = names (app w) /\
  inflight w' = inflight w /\
  issued w w' = [].
Proof.
  intros Hu. cbn [step]. unfold onEvent, render. rewrite Hu.
  unfold dispatch. cbn [run app]. unfold effects.
  cbn [currentUser setCurrentUser isNull view].
  rewrite Hu, View_eqb_refl. cbn.
  repeat split. apply issued_nothing.
Qed.

Lemma switch_clears_user_only_witness :
  let w := swiping Kyle [Ava; Liam] in
  let w' := step w (Input ClickSwitch) in
  currentUser (app w') = None /\
  render (app w') = ProfileSelection [Kyle; Emily] /\
  names (app w') = [Ava; Liam] /\
  inflight w' = [] /\
  issued w w' = [].
Proof.
  apply (switch_clears_user_only (swiping Kyle [Ava; Liam]) Kyle).
  reflexivity.
Defined.

(** C5 as stated fails: after Switch the queue of Kyle is still there. *)
Lemma switch_keeps_queue :
  ~ (currentUser (app (step (swiping Kyle [Ava; Liam]) (Input ClickSwitch))) =
       None /\
     names (app (step (swiping Kyle [Ava; Liam]) (Input ClickSwitch))) = []).
Proof. intros [_ H]. discriminate H. Qed.

(** ** The stack of cards *)

(** A card whose callback is the no-op does nothing, whatever is done to
    it. *)
Lemma noop_inert (input : SwipeCard.Input) :
  SwipeCard.handle Done noop input = Done.
Proof.
  destruct input as [info | | |]; trivial.
  cbn. unfold SwipeCard.handleDragEnd.
  destruct (js_gt _ _); [| destruct (js_lt _ _)]; reflexivity.
Qed.

Lemma cards_single (s : AppState) (n : Name) :
  names s = [n] ->
  cards s = [mkCard (n_id n) (n_name n) (handleSwipe (currentUser s) [n])].
Proof. intros H. unfold cards. now rewrite H. Qed.

Lemma cards_stacked (s : AppState) (n m : Name) (rest : list Name) :
  names s = n :: m :: rest ->
  cards s =
  [mkCard (n_id m) (n_name m) noop;
   mkCard (n_id n) (n_name n) (handleSwipe (currentUser s) (n :: m :: rest))].
Proof.
  intros H. unfold cards. rewrite H.
  assert (Hmin : Z.min (length_Z (n :: m :: rest)) 2 = 2).
  { unfold length_Z. cbn [List.length]. lia. }
  rewrite Hmin. reflexivity.
Qed.

(** The controller of App.tsx: on a non-empty queue the swipe view shows at
    most two cards, the head of the queue last in the DOM, hence on top, and
    wired to [handleSwipe]; a card behind it has the no-op and is inert. *)
Lemma front_card_only (s : AppState) (n : Name) (rest : list Name) :
  names s = n :: rest ->
  exists back,
    cards s =
      back ++ [mkCard (n_id n) (n_name n)
                 (handleSwipe (currentUser s) (names s))] /\
    (List.length (cards s) <= 2)%nat /\
    Forall (fun c => onSwipe c = noop) back /\
    forall i input w,
      (i < List.length back)%nat ->
      run (card_handler (cards s) i input) w = w.
Proof.
  intros H. destruct rest as [| m rest].
  - exists []. rewrite (cards_single s n H), H. cbn.
    repeat split; auto. intros i input w Hi. cbn in Hi. lia.
  - exists [mkCard (n_id m) (n_name m) noop].
    rewrite (cards_stacked s n m rest H), H. cbn [List.length app].
    repeat split; auto.
    intros i input w Hi. cbn in Hi. assert (i = 0%nat) by lia. subst i.
    unfold card_handler. cbn [nth_error onSwipe].
    now rewrite noop_inert.
Qed.

(** Acting on the front card of App.tsx is a decision submission. *)
Lemma front_card_submits (w : World) (u : User) (n : Name)
  (rest : list Name) (d : Direction) :
  currentUser (app w) = Some u ->
  view (app w) = swipe ->
  names (app w) = n :: rest ->
  step w (Input (OnCard (List.length (cards (app w)) - 1)
                   match d with
                   | like => SwipeCard.ClickLike
                   | dislike => SwipeCard.ClickDislike
                   | maybe => SwipeCard.ClickMaybe
                   end)) =
  submit d w.
Proof.
  intros Hu Hv Hn. cbn [step]. unfold submit. f_equal.
  unfold onEvent, render. rewrite Hu, Hv, Hn.
  assert (H0 : (length_Z (n :: rest) =? 0) = false) by reflexivity.
  assert (H1 : (length_Z (n :: rest) >? 0) = true) by reflexivity.
  rewrite H0, H1, andb_false_r.
  destruct rest as [| m rest].
  - rewrite (cards_single (app w) n Hn), Hu. now destruct d.
  - rewrite (cards_stacked (app w) n m rest Hn), Hu. now destruct d.
Qed.

(** C6. In the 183-line variant of the controller, with Kyle active and the
    queue [Ava], the swipe view shows one card, Ava's, the head of the queue
    and the front card, and its callback is the no-op: whatever is done to
    it, nothing happens.  App.tsx wires that card to [handleSwipe]. *)
Theorem legacy_single_card_dead :
  let w := swiping Kyle [Ava] in
  Legacy.cards (app w) = [mkCard 10 "Ava" noop] /\
  (forall input, run (card_handler (Legacy.cards (app w)) 0 input) w = w) /\
  cards (app w) = [mkCard 10 "Ava" (handleSwipe (Some Kyle) [Ava])] /\
  sent (run (card_handler (cards (app w)) 0 SwipeCard.ClickLike) w) =
    [PostSwipe (mkBody 1 10 like)].
Proof.
  repeat split.
  intros input. change (Legacy.cards (app (swiping Kyle [Ava])))
    with [mkCard 10 "Ava" noop].
  unfold card_handler. cbn [nth_error onSwipe].
  now rewrite noop_inert.
Qed.

(** ** The buttons of the card *)

(** Whatever is done to a card, [onSwipe] is called at most once, and it is
    called with [maybe] only by the middle button. *)
Theorem maybe_only_by_button (i : SwipeCard.Input) :
  (List.length (SwipeCard.input_calls i) <= 1)%nat /\
  (In maybe (SwipeCard.input_calls i) <-> i = SwipeCard.ClickMaybe).
Proof.
  destruct i as [info | | |]; cbn.
  - unfold SwipeCard.handleDragEnd.
    destruct (js_gt _ _); [| destruct (js_lt _ _)]; cbn;
      (split; [lia | split; [intros [H | []]; discriminate H
                            | discriminate]]) ||
      (split; [lia | split; [intros [] | discriminate]]).
  - split; [lia | split; [intros [H | []]; discriminate H | discriminate]].
  - split; [lia | split; auto].
  - split; [lia | split; [intros [H | []]; discriminate H | discriminate]].
Qed.

(** ** First render *)

(** The first render issues one request, the GET of the users.  When it
    succeeds the profile selection offers the users of the answer; when it
    fails the state stays the initial one and the selection stays empty. *)
Theorem mount_fetches_users (net : Network) :
  sent (step initialWorld Mount) = [GetUsers] /\
  app (step initialWorld Mount) = initialState /\
  inflight (steps initialWorld [Mount; Settle 0 net]) = [] /\
  sent (steps initialWorld [Mount; Settle 0 net]) = [GetUsers] /\
  app (steps initialWorld [Mount; Settle 0 net]) =
    match net GetUsers with
    | Fulfilled data => setUsers data initialState
    | Rejected _ => initialState
    end /\
  render (app (steps initialWorld [Mount; Settle 0 net])) =
    ProfileSelection match net GetUsers with
                     | Fulfilled data => data
                     | Rejected _ => []
                     end.
Proof.
  cbn. unfold settle, dispatch. cbn.
  destruct (net GetUsers) as [data | err]; cbn; repeat split.
Qed.

(** ** Selecting a profile *)

(** On the profile selection, the button of a user makes that user the
    active one and starts exactly one fetch, of that user's
    recommendations, with the loading flag raised; the queue is not
    touched. *)
Theorem select_profile_fetches (w : World) (i : nat) (u : User) :
  currentUser (app w) = None ->
  nth_error (users (app w)) i = Some u ->
  currentUser (app (step w (Input (ClickProfile i)))) = Some u /\
  loading (app (step w (Input (ClickProfile i)))) = true /\
  names (app (step w (Input (ClickProfile i)))) = names (app w) /\
  issued w (step w (Input (ClickProfile i))) = [GetRecommendations (u_id u)].
Proof.
  intros Hu Hi. cbn [step]. unfold onEvent, render. rewrite Hu, Hi.
  unfold dispatch. cbn [run app]. unfold effects.
  cbn [currentUser setCurrentUser view]. rewrite Hu, View_eqb_refl. cbn.
  repeat split. unfold issued. cbn. apply skipn_length_app.
Qed.

Lemma select_profile_fetches_witness :
  let w := mkWorld (mkState [Kyle; Emily] None [] false swipe None)
                   [] [GetUsers] [] [] in
  currentUser (app (step w (Input (ClickProfile 1)))) = Some Emily /\
  loading (app (step w (Input (ClickProfile 1)))) = true /\
  names (app (step w (Input (ClickProfile 1)))) = [] /\
  issued w (step w (Input (ClickProfile 1))) = [GetRecommendations 2].
Proof.
  apply (select_profile_fetches
           (mkWorld (mkState [Kyle; Emily] None [] false swipe None)
                    [] [GetUsers] [] [])
           1 Emily); reflexivity.
Defined.

(** ** The two views *)

Lemma length_Z_zero {A : Type} (l : list A) :
  (length_Z l =? 0) = true <-> l = [].
Proof.
  destruct l; split; trivial; discriminate.
Qed.

(** With a user active, a tab button makes its view the active one, and the
    dashboard is requested exactly when the view becomes the matches view:
    once on each change to it, never when the tab is already the active
    one, never on a change to the swipe view. *)
Theorem view_click_fetches_dashboard (w : World) (u : User) (v : View) :
  currentUser (app w) = Some u ->
  view (app (step w (Input (ClickView v)))) = v /\
  names (app (step w (Input (ClickView v)))) = names (app w) /\
  dashboard (app (step w (Input (ClickView v)))) = dashboard (app w) /\
  issued w (step w (Input (ClickView v))) =
    match view (app w), v with
    | swipe, matches => [GetDashboard]
    | _, _ => []
    end.
Proof.
  intros Hu. cbn [step]. unfold onEvent, render. rewrite Hu.
  unfold dispatch. cbn [run app]. unfold effects.
  cbn [currentUser setView view]. rewrite same_user_refl.
  unfold issued.
  destruct (view (app w)), v; cbn; repeat split;
    apply issued_nothing || apply skipn_length_app.
Qed.

Lemma view_click_fetches_dashboard_witness :
  issued (swiping Kyle [Ava])
         (step (swiping Kyle [Ava]) (Input (ClickView matches))) =
  [GetDashboard] /\
  issued (swiping Kyle [Ava])
         (step (swiping Kyle [Ava]) (Input (ClickView swipe))) = [].
Proof.
  split.
  - apply (view_click_fetches_dashboard (swiping Kyle [Ava]) Kyle matches).
    reflexivity.
  - apply (view_click_fetches_dashboard (swiping Kyle [Ava]) Kyle swipe).
    reflexivity.
Defined.

(** Opening the matches view from the swipe view. *)
Lemma open_matches (w : World) (u : User) :
  currentUser (app w) = Some u ->
  view (app w) = swipe ->
  exists k,
    step w (Input (ClickView matches)) =
    mkWorld (setView matches (app w))
            (inflight w ++ [mkPending GetDashboard k])
            (sent w ++ [GetDashboard]) (console w) (alerts w) /\
    (forall d, k (Fulfilled d) = Update (setDashboard (Some d)) Done) /\
    (forall e, k (Rejected e) = ConsoleError None (Axios e) Done).
Proof.
  intros Hu Hv. eexists. split.
  - cbn [step]. unfold onEvent, render. rewrite Hu.
    unfold dispatch. cbn [run app]. unfold effects.
    cbn [currentUser setView view]. rewrite same_user_refl, Hv.
    reflexivity.
  - split; intros; reflexivity.
Qed.

(** The first visit of the matches view, no dashboard having been loaded:
    while the request is in flight, and for good when it fails, the four
    columns are empty and the note of the first column is absent; when it
    succeeds the columns are those of the answer and the note is there
    exactly when the answer has no match. *)
Theorem dashboard_first_visit (w : World) (u : User) (net : Network) :
  currentUser (app w) = Some u ->
  view (app w) = swipe ->
  dashboard (app w) = None ->
  render (app (step w (Input (ClickView matches)))) =
    Main (u_name u) matches (Aggregate None) /\
  aggregate_view None = mkAggregate [] false [] [] [] /\
  match net GetDashboard with
  | Fulfilled d =>
      render (app (steps w [Input (ClickView matches);
                            Settle (List.length (inflight w)) net])) =
        Main (u_name u) matches (Aggregate (Some d)) /\
      matches_column (aggregate_view (Some d)) = entries (d_matches d) /\
      (no_matches_yet (aggregate_view (Some d)) = true <-> d_matches d = [])
  | Rejected _ =>
      render (app (steps w [Input (ClickView matches);
                            Settle (List.length (inflight w)) net])) =
        Main (u_name u) matches (Aggregate None)
  end.
Proof.
  intros Hu Hv Hd.
  destruct (open_matches w u Hu Hv) as (k & Hs & Hok & Herr).
  cbn [steps fold_left]. rewrite Hs.
  split; [| split; [reflexivity |]].
  - unfold render. cbn. now rewrite Hu, Hd.
  - cbn [step]. rewrite settle_last.
    destruct (net GetDashboard) as [d | err].
    + rewrite Hok, dispatch_keep by reflexivity. unfold render. cbn.
      rewrite Hu. repeat split; try apply length_Z_zero.
    + rewrite Herr, dispatch_keep by reflexivity. unfold render. cbn.
      now rewrite Hu, Hd.
Qed.

Lemma dashboard_first_visit_witness :
  render (app (step (swiping Kyle [Ava]) (Input (ClickView matches)))) =
    Main "Kyle" matches (Aggregate None) /\
  aggregate_view None = mkAggregate [] false [] [] [] /\
  match failing (mkError None None) GetDashboard with
  | Fulfilled d =>
      render (app (steps (swiping Kyle [Ava])
                     [Input (ClickView matches);
                      Settle 0 (failing (mkError None None))])) =
        Main "Kyle" matches (Aggregate (Some d)) /\
      matches_column (aggregate_view (Some d)) = entries (d_matches d) /\
      (no_matches_yet (aggregate_view (Some d)) = true <-> d_matches d = [])
  | Rejected _ =>
      render (app (steps (swiping Kyle [Ava])
                     [Input (ClickView matches);
                      Settle 0 (failing (mkError None None))])) =
        Main "Kyle" matches (Aggregate None)
  end.
Proof.
  apply (dashboard_first_visit (swiping Kyle [Ava]) Kyle
           (failing (mkError None None))); reflexivity.
Defined.

(** ** Steps of the page, as worlds *)

Lemma step_switch (w : World) (u : User) :
  currentUser (app w) = Some u ->
  step w (Input ClickSwitch) =
  mkWorld (setCurrentUser None (app w)) (inflight w) (sent w) (console w)
          (alerts w).
Proof.
  intros Hu. cbn [step]. unfold onEvent, render. rewrite Hu.
  unfold dispatch. cbn [run app]. unfold effects.
  cbn [currentUser setCurrentUser isNull view].
  now rewrite Hu, View_eqb_refl.
Qed.

Lemma step_select (w : World) (i : nat) (u : User) :
  currentUser (app w) = None ->
  nth_error (users (app w)) i = Some u ->
  exists k,
    step w (Input (ClickProfile i)) =
    mkWorld (setLoading true (setCurrentUser (Some u) (app w)))
            (inflight w ++ [mkPending (GetRecommendations (u_id u)) k])
            (sent w ++ [GetRecommendations (u_id u)]) (console w) (alerts w) /\
    (forall data,
       k (Fulfilled data) =
       Update (setNames (fun _ => data)) (Update (setLoading false) Done)) /\
    (forall err,
       k (Rejected err) =
       ConsoleError None (Axios err) (Update (setLoading false) Done)).
Proof.
  intros Hu Hi. eexists. split.
  - cbn [step]. unfold onEvent, render. rewrite Hu, Hi.
    unfold dispatch. cbn [run app]. unfold effects.
    cbn [currentUser setCurrentUser view]. rewrite Hu, View_eqb_refl.
    reflexivity.
  - split; intros; reflexivity.
Qed.

Lemma step_generate (w : World) (u : User) :
  currentUser (app w) = Some u ->
  exists k,
    step w (Input ClickGenerate) =
    mkWorld (setLoading true (app w))
            (inflight w ++ [mkPending PostGenerate k])
            (sent w ++ [PostGenerate]) (console w) (alerts w) /\
    (forall msg,
       k (Fulfilled msg) =
       Alert (show msg)
         (Call (fetchRecommendations (Some u))
            (Update (setLoading false) Done))) /\
    (forall e,
       k (Rejected e) =
       Alert (String.append "Generation failed: "
                (show (or_else (or_else (detail e) (message e))
                               (Some "Unknown error"%string))))
         (ConsoleError None (Axios e) (Update (setLoading false) Done))).
Proof.
  intros Hu. eexists. split.
  - cbn [step]. unfold onEvent, render. rewrite Hu.
    rewrite dispatch_keep by reflexivity. reflexivity.
  - split; intros; reflexivity.
Qed.

(** ** Generate *)

(** With a user active, a successful Generate shows the server's message
    (the text [undefined] when there is none) and starts one fetch of the
    user's recommendations; the handler then lowers the loading flag at
    once, so the flag is down while that fetch is in flight, and the queue
    is as it was. *)
Theorem generate_success (w : World) (u : User) (net : Network)
  (msg : option string) :
  currentUser (app w) = Some u ->
  net PostGenerate = Fulfilled msg ->
  alerts (steps w [Input ClickGenerate;
                   Settle (List.length (inflight w)) net]) =
    alerts w ++ [show msg] /\
  issued w (steps w [Input ClickGenerate;
                     Settle (List.length (inflight w)) net]) =
    [PostGenerate; GetRecommendations (u_id u)] /\
  map p_req (inflight (steps w [Input ClickGenerate;
                                Settle (List.length (inflight w)) net])) =
    map p_req (inflight w) ++ [GetRecommendations (u_id u)] /\
  loading (app (steps w [Input ClickGenerate;
                         Settle (List.length (inflight w)) net])) = false /\
  names (app (steps w [Input ClickGenerate;
                       Settle (List.length (inflight w)) net])) =
    names (app w).
Proof.
  intros Hu Hnet. cbn [steps fold_left].
  destruct (step_generate w u Hu) as (k & Hs & Hok & _).
  rewrite Hs. cbn [step]. rewrite settle_last, Hnet, Hok.
  rewrite dispatch_keep by reflexivity. cbn.
  repeat split.
  - unfold issued. cbn. rewrite <- app_assoc. apply skipn_length_app.
  - now rewrite map_app.
Qed.

Lemma generate_success_witness :
  alerts (steps (swiping Kyle []) [Input ClickGenerate;
     Settle 0 (answer [] (mkDashboard [] [] [] []) [] None)]) =
    ["undefined"%string] /\
  issued (swiping Kyle []) (steps (swiping Kyle []) [Input ClickGenerate;
     Settle 0 (answer [] (mkDashboard [] [] [] []) [] None)]) =
    [PostGenerate; GetRecommendations 1] /\
  map p_req (inflight (steps (swiping Kyle []) [Input ClickGenerate;
     Settle 0 (answer [] (mkDashboard [] [] [] []) [] None)])) =
    [GetRecommendations 1] /\
  loading (app (steps (swiping Kyle []) [Input ClickGenerate;
     Settle 0 (answer [] (mkDashboard [] [] [] []) [] None)])) = false /\
  names (app (steps (swiping Kyle []) [Input ClickGenerate;
     Settle 0 (answer [] (mkDashboard [] [] [] []) [] None)])) = [].
Proof.
  apply (generate_success (swiping Kyle []) Kyle
           (answer [] (mkDashboard [] [] [] []) [] None) None);
    reflexivity.
Defined.

(** With a user active, a failed Generate shows one alert, whose reason is
    the server's detail when it has a non-empty one, else the error's
    message when it is non-empty, else [Unknown error]; it logs the error,
    lowers the loading flag, starts no fetch and leaves the queue as it
    was. *)
Theorem generate_failure (w : World) (u : User) (net : Network)
  (err : AxiosError) :
  currentUser (app w) = Some u ->
  net PostGenerate = Rejected err ->
  alerts (steps w [Input ClickGenerate;
                   Settle (List.length (inflight w)) net]) =
    alerts w ++
    [String.append "Generation failed: "
       match detail err, message err with
       | Some (String c d), _ => String c d
       | _, Some (String c m) => String c m
       | _, _ => "Unknown error"%string
       end] /\
  console (steps w [Input ClickGenerate;
                    Settle (List.length (inflight w)) net]) =
    console w ++ [(None, Axios err)] /\
  issued w (steps w [Input ClickGenerate;
                     Settle (List.length (inflight w)) net]) =
    [PostGenerate] /\
  inflight (steps w [Input ClickGenerate;
                     Settle (List.length (inflight w)) net]) = inflight w /\
  app (steps w [Input ClickGenerate;
                Settle (List.length (inflight w)) net]) =
    setLoading false (app w).
Proof.
  intros Hu Hnet. cbn [steps fold_left].
  destruct (step_generate w u Hu) as (k & Hs & _ & Herr).
  rewrite Hs. cbn [step]. rewrite settle_last, Hnet, Herr.
  rewrite dispatch_keep by reflexivity. cbn.
  repeat split.
  - do 2 f_equal. f_equal.
    destruct (detail err) as [[| c d] |], (message err) as [[| c' m] |];
      reflexivity.
  - unfold issued. cbn. apply skipn_length_app.
Qed.

Lemma generate_failure_witness :
  alerts (steps (swiping Kyle [Ava]) [Input ClickGenerate;
     Settle 0 (failing (mkError (Some EmptyString)
                                (Some "Network Error"%string)))]) =
    ["Generation failed: Network Error"%string] /\
  console (steps (swiping Kyle [Ava]) [Input ClickGenerate;
     Settle 0 (failing (mkError (Some EmptyString)
                                (Some "Network Error"%string)))]) =
    [(None, Axios (mkError (Some EmptyString) (Some "Network Error"%string)))] /\
  issued (swiping Kyle [Ava]) (steps (swiping Kyle [Ava]) [Input ClickGenerate;
     Settle 0 (failing (mkError (Some EmptyString)
                                (Some "Network Error"%string)))]) =
    [PostGenerate] /\
  inflight (steps (swiping Kyle [Ava]) [Input ClickGenerate;
     Settle 0 (failing (mkError (Some EmptyString)
                                (Some "Network Error"%string)))]) = [] /\
  app (steps (swiping Kyle [Ava]) [Input ClickGenerate;
     Settle 0 (failing (mkError (Some EmptyString)
                                (Some "Network Error"%string)))]) =
    setLoading false (app (swiping Kyle [Ava])).
Proof.
  apply (generate_failure (swiping Kyle [Ava]) Kyle
           (failing (mkError (Some EmptyString) (Some "Network Error"%string)))
           (mkError (Some EmptyString) (Some "Network Error"%string)));
    reflexivity.
Defined.

(** ** The front card *)

(** With a user active in the swipe view and a non-empty queue, whatever is
    done to the front card is the decision submission of the call the card
    makes, and nothing at all when the card makes none (a drag released in
    the dead zone). *)
Theorem front_card_input (w : World) (u : User) (n : Name)
  (rest : list Name) (input : SwipeCard.Input) :
  currentUser (app w) = Some u ->
  view (app w) = swipe ->
  names (app w) = n :: rest ->
  step w (Input (OnCard (front (app w)) input)) =
  match SwipeCard.input_calls input with
  | [d] => submit d w
  | _ => w
  end.
Proof.
  intros Hu Hv Hn. cbn [step]. unfold submit, front.
  assert (Hh : onEvent (app w) (OnCard (List.length (cards (app w)) - 1) input) =
               SwipeCard.handle Done
                 (handleSwipe (currentUser (app w)) (names (app w))) input).
  { unfold onEvent, render. rewrite Hu, Hv, Hn.
    assert (H0 : (length_Z (n :: rest) =? 0) = false) by reflexivity.
    assert (H1 : (length_Z (n :: rest) >? 0) = true) by reflexivity.
    rewrite H0, H1, andb_false_r.
    destruct rest as [| m rest].
    - now rewrite (cards_single (app w) n Hn), Hu.
    - now rewrite (cards_stacked (app w) n m rest Hn), Hu. }
  rewrite Hh.
  destruct input as [info | | |]; try reflexivity.
  unfold SwipeCard.input_calls, SwipeCard.handle, SwipeCard.handleDragEnd.
  destruct (js_gt _ _); [reflexivity |].
  destruct (js_lt _ _); [reflexivity |].
  apply dispatch_keep; reflexivity.
Qed.

Lemma front_card_input_witness :
  step (swiping Kyle [Ava; Liam])
       (Input (OnCard (front (app (swiping Kyle [Ava; Liam])))
                 (SwipeCard.DragEnd (SwipeCard.mkInfo (of_Z 150))))) =
  match SwipeCard.input_calls
          (SwipeCard.DragEnd (SwipeCard.mkInfo (of_Z 150))) with
  | [d] => submit d (swiping Kyle [Ava; Liam])
  | _ => swiping Kyle [Ava; Liam]
  end.
Proof.
  apply (front_card_input (swiping Kyle [Ava; Liam]) Kyle Ava [Liam]
           (SwipeCard.DragEnd (SwipeCard.mkInfo (of_Z 150))));
    reflexivity.
Defined.

(** On a queue of two candidates or more the 183-line variant renders the
    cards of App.tsx, with the same callbacks. *)
Theorem legacy_cards_agree (s : AppState) (n m : Name) (rest : list Name) :
  names s = n :: m :: rest ->
  Legacy.cards s = cards s.
Proof.
  intros H. rewrite (cards_stacked s n m rest H).
  unfold Legacy.cards. now rewrite H.
Qed.

Lemma legacy_cards_agree_witness :
  Legacy.cards (app (swiping Kyle [Ava; Liam; Noah])) =
  cards (app (swiping Kyle [Ava; Liam; Noah])).
Proof.
  apply (legacy_cards_agree (app (swiping Kyle [Ava; Liam; Noah]))
           Ava Liam [Noah]).
  reflexivity.
Defined.

(** ** The last card *)

(** With a user active in the swipe view and one candidate left, a
    successful decision empties the queue and starts the refill, and the
    page shows the spinner; when the refill settles the page shows the
    cards of a non-empty answer, and the end-of-queue message for an empty
    answer or a failure. *)
Theorem last_card_refills (w : World) (u : User) (n : Name) (d : Direction)
  (net net' : Network) :
  currentUser (app w) = Some u ->
  view (app w) = swipe ->
  names (app w) = [n] ->
  net (PostSwipe (mkBody (u_id u) (n_id n) d)) = Fulfilled tt ->
  render (app (step (submit d w) (Settle (List.length (inflight w)) net))) =
    Main (u_name u) swipe Spinner /\
  issued w (step (submit d w) (Settle (List.length (inflight w)) net)) =
    [PostSwipe (mkBody (u_id u) (n_id n) d); GetRecommendations (u_id u)] /\
  render (app (steps (submit d w)
                 [Settle (List.length (inflight w)) net;
                  Settle (List.length (inflight w)) net'])) =
    Main (u_name u) swipe
      match net' (GetRecommendations (u_id u)) with
      | Fulfilled (x :: more) =>
          Cards (cards (mkState (users (app w)) (Some u) (x :: more) false
                                swipe (dashboard (app w))))
      | _ => NoMoreNames
      end.
Proof.
  intros Hu Hv Hn Hnet. cbn [steps fold_left].
  destruct (submit_cons w u n [] d Hu Hn) as (k & Hs & Hok & _).
  rewrite Hs. cbn [step]. rewrite settle_last, Hnet, Hok, dispatch_popped.
  change (length_Z [n] <? 3) with true. cbv iota.
  destruct (run_fetchRecommendations u
              (mkWorld (setNames (fun prev => slice_from 1 prev) (app w))
                       (inflight w) (sent w ++
                         [PostSwipe (mkBody (u_id u) (n_id n) d)])
                       (console w) (alerts w)))
    as (k' & Hr & Hok' & Herr').
  cbn [app inflight sent console alerts] in Hr |- *. rewrite Hr.
  split; [| split].
  - unfold render. cbn. now rewrite Hu, Hv, Hn.
  - unfold issued. cbn. rewrite <- app_assoc. apply skipn_length_app.
  - rewrite settle_last.
    destruct (net' (GetRecommendations (u_id u))) as [[| x more] | err].
    + rewrite Hok', dispatch_keep by reflexivity. unfold render. cbn.
      now rewrite Hu, Hv.
    + rewrite Hok', dispatch_keep by reflexivity. unfold render. cbn.
      now rewrite Hu, Hv.
    + rewrite Herr', dispatch_keep by reflexivity. unfold render. cbn.
      now rewrite Hu, Hv, Hn.
Qed.

Lemma last_card_refills_witness :
  render (app (step (submit like (swiping Kyle [Ava]))
                 (Settle 0 (answer [] (mkDashboard [] [] [] []) [] None)))) =
    Main "Kyle" swipe Spinner /\
  issued (swiping Kyle [Ava])
    (step (submit like (swiping Kyle [Ava]))
       (Settle 0 (answer [] (mkDashboard [] [] [] []) [] None))) =
    [PostSwipe (mkBody 1 10 like); GetRecommendations 1] /\
  render (app (steps (submit like (swiping Kyle [Ava]))
                 [Settle 0 (answer [] (mkDashboard [] [] [] []) [] None);
                  Settle 0 (failing (mkError None None))])) =
    Main "Kyle" swipe
      match failing (mkError None None) (GetRecommendations 1) with
      | Fulfilled (x :: more) =>
          Cards (cards (mkState [Kyle; Emily] (Some Kyle) (x :: more) false
                                swipe None))
      | _ => NoMoreNames
      end.
Proof.
  apply (last_card_refills (swiping Kyle [Ava]) Kyle Ava like
           (answer [] (mkDashboard [] [] [] []) [] None)
           (failing (mkError None None)));
    reflexivity.
Defined.

(** ** Requests that overlap *)

(** After Switch, the queue of the previous user is shown to the next one:
    with the queue of [u] not empty, Switch and the selection of [u'] leave
    that queue on the page as cards, not the spinner, and a like on the
    front card posts the decision of [u'] on the head of the queue of [u]
    while the fetch for [u'] is still in flight. *)
Theorem stale_queue_after_switch (w : World) (u u' : User) (i : nat)
  (n : Name) (rest : list Name) :
  currentUser (app w) = Some u ->
  view (app w) = swipe ->
  names (app w) = n :: rest ->
  nth_error (users (app w)) i = Some u' ->
  names (app (steps w [Input ClickSwitch; Input (ClickProfile i)])) =
    n :: rest /\
  render (app (steps w [Input ClickSwitch; Input (ClickProfile i)])) =
    Main (u_name u') swipe
      (Cards (cards (app (steps w [Input ClickSwitch;
                                   Input (ClickProfile i)])))) /\
  issued w
    (step (steps w [Input ClickSwitch; Input (ClickProfile i)])
       (Input (OnCard
                 (front (app (steps w [Input ClickSwitch;
                                       Input (ClickProfile i)])))
                 SwipeCard.ClickLike))) =
    [GetRecommendations (u_id u');
     PostSwipe (mkBody (u_id u') (n_id n) like)].
Proof.
  intros Hu Hv Hn Hi. cbn [steps fold_left].
  rewrite (step_switch w u Hu).
  destruct (step_select
              (mkWorld (setCurrentUser None (app w)) (inflight w) (sent w)
                       (console w) (alerts w)) i u' eq_refl Hi)
    as (k & Hs & _).
  rewrite Hs.
  set (w2 := mkWorld (setLoading true _) _ _ _ _).
  assert (Hu2 : currentUser (app w2) = Some u') by reflexivity.
  assert (Hv2 : view (app w2) = swipe) by exact Hv.
  assert (Hn2 : names (app w2) = n :: rest) by exact Hn.
  split; [exact Hn2 | split].
  - unfold render. rewrite Hu2, Hv2, Hn2.
    assert (H0 : (length_Z (n :: rest) =? 0) = false) by reflexivity.
    assert (H1 : (length_Z (n :: rest) >? 0) = true) by reflexivity.
    now rewrite H0, H1, andb_false_r.
  - unfold front.
    rewrite (front_card_submits w2 u' n rest like Hu2 Hv2 Hn2).
    destruct (submit_cons w2 u' n rest like Hu2 Hn2) as (k' & Hs' & _).
    rewrite Hs'. unfold issued. cbn. rewrite <- app_assoc.
    apply skipn_length_app.
Qed.

Lemma stale_queue_after_switch_witness :
  names (app (steps (swiping Kyle [Ava; Liam])
                [Input ClickSwitch; Input (ClickProfile 1)])) =
    [Ava; Liam] /\
  render (app (steps (swiping Kyle [Ava; Liam])
                 [Input ClickSwitch; Input (ClickProfile 1)])) =
    Main "Emily" swipe
      (Cards (cards (app (steps (swiping Kyle [Ava; Liam])
                            [Input ClickSwitch; Input (ClickProfile 1)])))) /\
  issued (swiping Kyle [Ava; Liam])
    (step (steps (swiping Kyle [Ava; Liam])
             [Input ClickSwitch; Input (ClickProfile 1)])
       (Input (OnCard
                 (front (app (steps (swiping Kyle [Ava; Liam])
                                [Input ClickSwitch; Input (ClickProfile 1)])))
                 SwipeCard.ClickLike))) =
    [GetRecommendations 2; PostSwipe (mkBody 2 10 like)].
Proof.
  apply (stale_queue_after_switch (swiping Kyle [Ava; Liam]) Kyle Emily 1
           Ava [Liam]); reflexivity.
Defined.

(** The answer that arrives last wins, whoever asked: a user [u] is
    selected, then Switch, then [u'] is selected, so that two fetches are in
    flight; when the answer for [u'] arrives first and the answer for [u]
    after it, [u'] is the active user and the queue is the answer for
    [u]. *)
Theorem late_answer_overwrites (w : World) (u u' : User) (i j : nat)
  (net net' : Network) (d d' : list Name) :
  currentUser (app w) = None ->
  nth_error (users (app w)) i = Some u ->
  nth_error (users (app w)) j = Some u' ->
  net' (GetRecommendations (u_id u')) = Fulfilled d' ->
  net (GetRecommendations (u_id u)) = Fulfilled d ->
  currentUser (app (steps w [Input (ClickProfile i); Input ClickSwitch;
                             Input (ClickProfile j);
                             Settle (S (List.length (inflight w))) net';
                             Settle (List.length (inflight w)) net])) =
    Some u' /\
  names (app (steps w [Input (ClickProfile i); Input ClickSwitch;
                       Input (ClickProfile j);
                       Settle (S (List.length (inflight w))) net';
                       Settle (List.length (inflight w)) net])) = d /\
  inflight (steps w [Input (ClickProfile i); Input ClickSwitch;
                     Input (ClickProfile j);
                     Settle (S (List.length (inflight w))) net';
                     Settle (List.length (inflight w)) net]) = inflight w.
Proof.
  intros Hu Hi Hj Hnet' Hnet. cbn [steps fold_left].
  destruct (step_select w i u Hu Hi) as (k & Hs & Hok & _).
  rewrite Hs.
  rewrite (step_switch
             (mkWorld (setLoading true (setCurrentUser (Some u) (app w)))
                (inflight w ++ [mkPending (GetRecommendations (u_id u)) k])
                (sent w ++ [GetRecommendations (u_id u)])
                (console w) (alerts w)) u eq_refl).
  cbn [app inflight sent console alerts].
  destruct (step_select
              (mkWorld
                 (setCurrentUser None
                    (setLoading true (setCurrentUser (Some u) (app w))))
                 (inflight w ++ [mkPending (GetRecommendations (u_id u)) k])
                 (sent w ++ [GetRecommendations (u_id u)])
                 (console w) (alerts w)) j u' eq_refl Hj)
    as (k' & Hs' & Hok' & _).
  rewrite Hs'. cbn [app inflight sent console alerts step].
  replace (S (List.length (inflight w)))
    with (List.length
            (inflight w ++ [mkPending (GetRecommendations (u_id u)) k]))
    by (rewrite length_app; cbn; lia).
  rewrite settle_last, Hnet', Hok', dispatch_keep by reflexivity.
  cbn [run app inflight sent console alerts].
  rewrite settle_last, Hnet, Hok, dispatch_keep by reflexivity.
  cbn. repeat split.
Qed.

Lemma late_answer_overwrites_witness :
  let w := mkWorld (mkState [Kyle; Emily] None [] false swipe None)
                   [] [GetUsers] [] [] in
  let es := [Input (ClickProfile 0); Input ClickSwitch;
             Input (ClickProfile 1);
             Settle 1 (answer [] (mkDashboard [] [] [] []) [Noah] None);
             Settle 0 (answer [] (mkDashboard [] [] [] []) [Ava; Liam] None)]
  in
  currentUser (app (steps w es)) = Some Emily /\
  names (app (steps w es)) = [Ava; Liam] /\
  inflight (steps w es) = [].
Proof.
  apply (late_answer_overwrites
           (mkWorld (mkState [Kyle; Emily] None [] false swipe None)
                    [] [GetUsers] [] [])
           Kyle Emily 0 1
           (answer [] (mkDashboard [] [] [] []) [Ava; Liam] None)
           (answer [] (mkDashboard [] [] [] []) [Noah] None)
           [Ava; Liam] [Noah]); reflexivity.
Defined.

(** Two decisions submitted on the same render, the second before the POST
    of the first has settled, both post the head of the queue, and when
    both POSTs succeed two candidates have left the queue: the second one
    goes without a decision having been posted for it. *)
Theorem double_submit_drops_second (w : World) (u : User) (n m : Name)
  (rest : list Name) (d1 d2 : Direction) (net : Network) :
  currentUser (app w) = Some u ->
  names (app w) = n :: m :: rest ->
  net (PostSwipe (mkBody (u_id u) (n_id n) d1)) = Fulfilled tt ->
  net (PostSwipe (mkBody (u_id u) (n_id n) d2)) = Fulfilled tt ->
  issued w (submit d2 (submit d1 w)) =
    [PostSwipe (mkBody (u_id u) (n_id n) d1);
     PostSwipe (mkBody (u_id u) (n_id n) d2)] /\
  names (app (steps (submit d2 (submit d1 w))
                [Settle (List.length (inflight w)) net;
                 Settle (List.length (inflight w)) net])) = rest.
Proof.
  intros Hu Hn Hn1 Hn2.
  destruct (submit_cons w u n (m :: rest) d1 Hu Hn) as (k1 & Hs1 & Hok1 & _).
  rewrite Hs1.
  destruct (submit_cons
              (mkWorld (app w)
                 (inflight w ++
                  [mkPending (PostSwipe (mkBody (u_id u) (n_id n) d1)) k1])
                 (sent w ++ [PostSwipe (mkBody (u_id u) (n_id n) d1)])
                 (console w) (alerts w)) u n (m :: rest) d2 Hu Hn)
    as (k2 & Hs2 & Hok2 & _).
  rewrite Hs2. cbn [app inflight sent console alerts].
  split.
  - unfold issued. cbn. rewrite <- app_assoc. apply skipn_length_app.
  - cbn [steps fold_left step]. rewrite <- app_assoc. cbn [List.app].
    rewrite settle_middle, Hn1, Hok1, dispatch_popped.
    cbn [app inflight sent console alerts].
    destruct (length_Z (n :: m :: rest) <? 3).
    + cbn [fetchRecommendations run app inflight sent console alerts].
      rewrite <- app_assoc. cbn [List.app].
      rewrite settle_middle, Hn2, Hok2, dispatch_keep by reflexivity.
      cbn. now rewrite Hn.
    + rewrite settle_last, Hn2, Hok2, dispatch_keep by reflexivity.
      cbn. now rewrite Hn.
Qed.

Lemma double_submit_drops_second_witness :
  issued (swiping Kyle [Ava; Liam; Noah])
         (submit dislike (submit like (swiping Kyle [Ava; Liam; Noah]))) =
    [PostSwipe (mkBody 1 10 like); PostSwipe (mkBody 1 10 dislike)] /\
  names (app (steps (submit dislike
                       (submit like (swiping Kyle [Ava; Liam; Noah])))
                [Settle 0 (answer [] (mkDashboard [] [] [] []) [] None);
                 Settle 0 (answer [] (mkDashboard [] [] [] []) [] None)])) =
    [Noah].
Proof.
  apply (double_submit_drops_second (swiping Kyle [Ava; Liam; Noah])
           Kyle Ava Liam [Noah] like dislike
           (answer [] (mkDashboard [] [] [] []) [] None));
    reflexivity.
Defined.

(** ** Invariants of the executions *)

(** What a handler leaves in flight does not depend on the world. *)
Lemma run_inflight (p : Async) (w : World) :
  inflight (run p w) = inflight w ++ spawned p.
Proof.
  unfold spawned. revert w.
  induction p as [| f k IH | t e k IH | t k IH | r k _ | p IHp k IHk];
    intros w; cbn [run].
  - cbn. now rewrite app_nil_r.
  - rewrite IH, (IH (mkWorld _ _ _ _ _)). reflexivity.
  - rewrite IH, (IH (mkWorld _ _ _ _ _)). reflexivity.
  - rewrite IH, (IH (mkWorld _ _ _ _ _)). reflexivity.
  - reflexivity.
  - rewrite IHk, IHp, (IHk (run p initialWorld)), (IHp initialWorld).
    cbn. now rewrite app_assoc.
Qed.

Lemma steps_snoc (w : World) (es : list Event) (e : Event) :
  steps w (es ++ [e]) = step (steps w es) e.
Proof. unfold steps. now rewrite fold_left_app. Qed.

Lemma remove_nth_split {A : Type} (l : list A) (i : nat) (x : A) :
  nth_error l i = Some x ->
  exists l1 l2, l = l1 ++ x :: l2 /\ remove_nth i l = l1 ++ l2.
Proof.
  intros H. destruct (nth_error_split l i H) as (l1 & l2 & Hl & Hlen).
  exists l1, l2. split; trivial. subst l i. apply remove_nth_middle.
Qed.

Lemma In_map_from {A B : Type} (f : A -> Z -> B) (l : list A) (i : Z)
  (y : B) :
  In y (map_from f i l) -> exists x j, y = f x j.
Proof.
  revert i. induction l as [| x l IH]; intros i; cbn; [intros [] |].
  intros [H | H]; [now exists x, i | now apply (IH (i + 1))].
Qed.

Lemma card_handler_toplevel (s : AppState) (i : nat)
  (input : SwipeCard.Input) :
  toplevel (card_handler (cards s) i input).
Proof.
  unfold card_handler.
  destruct (nth_error (cards s) i) as [c |] eqn:E; [| constructor].
  apply nth_error_In in E. unfold cards, mapi in E.
  apply In_map_from in E. destruct E as (x & j & ->). cbn [onSwipe].
  destruct (j =? _).
  - destruct input as [info | | |]; cbn;
      try (apply toplevel_handler; constructor).
    unfold SwipeCard.handleDragEnd.
    destruct (js_gt _ _); [| destruct (js_lt _ _)];
      try (apply toplevel_handler; constructor); constructor.
  - rewrite noop_inert. constructor.
Qed.

Lemma onEvent_toplevel (s : AppState) (e : UserEvent) :
  toplevel (onEvent s e).
Proof.
  unfold onEvent, render. destruct (currentUser s) as [u |].
  - destruct e as [i | v | | | i input].
    + apply toplevel_done.
    + apply toplevel_view.
    + apply toplevel_handler. apply handler_generate.
    + apply toplevel_user.
    + destruct (view s).
      * destruct (loading s && _); [apply toplevel_done |].
        destruct (_ >? _); [| apply toplevel_done].
        apply card_handler_toplevel.
      * apply toplevel_done.
  - destruct e as [i | v | | | i input]; try apply toplevel_done.
    destruct (nth_error (users s) i);
      [apply toplevel_user | apply toplevel_done].
Qed.

(** The resumed handlers leave the user and the view alone. *)
Lemma known_keeps_user_view (p : Pending) (res : Result (Data (p_req p)))
  (v : World) :
  known p ->
  currentUser (app (run (p_cont p res) v)) = currentUser (app v) /\
  view (app (run (p_cont p res) v)) = view (app v).
Proof.
  intros H. known_cases H; cbn in res |- *;
    destruct res; cbn; split_branches; auto.
Qed.

Lemma fetch_known (u : User) (l : list Pending) :
  l = spawned (fetchRecommendations (Some u)) -> Forall known l.
Proof.
  intros ->. apply Forall_forall. intros q Hq.
  exists (fetchRecommendations (Some u)). split; [constructor | exact Hq].
Qed.

(** What they leave in flight is known again. *)
Lemma known_spawns_known (p : Pending) (res : Result (Data (p_req p))) :
  known p -> Forall known (spawned (p_cont p res)).
Proof.
  intros H. known_cases H; cbn in res |- *;
    destruct res; unfold spawned; cbn; split_branches;
    try (constructor; fail);
    now apply (fetch_known u).
Qed.

(** The handler of a fetch of the queue, or of Generate, ends with the
    loading flag down. *)
Lemma loader_lowers_flag (p : Pending) (res : Result (Data (p_req p)))
  (v : World) :
  known p -> is_loader p = true ->
  loading (app (run (p_cont p res) v)) = false.
Proof.
  intros H Hl. known_cases H; cbn in res, Hl |- *; try discriminate Hl;
    destruct res; cbn; split_branches; reflexivity.
Qed.

(** The other handlers raise the flag only by starting a fetch of the
    queue. *)
Lemma other_raises_with_fetch (p : Pending) (res : Result (Data (p_req p)))
  (v : World) :
  known p -> is_loader p = false ->
  loading (app (run (p_cont p res) v)) = true ->
  loading (app v) = true \/
  Exists (fun q => is_loader q = true) (spawned (p_cont p res)).
Proof.
  intros H Hl. known_cases H; cbn in res, Hl |- *; try discriminate Hl;
    destruct res; unfold spawned; cbn; split_branches; auto.
Qed.

Lemma toplevel_spawns_known (p : Async) :
  toplevel p -> Forall known (spawned p).
Proof.
  induction 1 as [| x | v | p Hh | p k _ IHp _ IHk];
    try (unfold spawned; cbn; constructor).
  - apply Forall_forall. intros q Hq. now exists p.
  - unfold spawned. cbn [run]. rewrite run_inflight.
    apply Forall_app. split; assumption.
Qed.

Lemma toplevel_raises_with_loader (p : Async) (v : World) :
  toplevel p ->
  loading (app (run p v)) = true ->
  loading (app v) = true \/
  Exists (fun q => is_loader q = true) (spawned p).
Proof.
  intros H. revert v.
  induction H as [| x | w | p Hh | p k _ IHp _ IHk]; intros v; cbn; auto.
  - destruct Hh as [| | u | [u |] [| n rest] d | cu]; cbn; auto.
  - intros Hl. destruct (IHk _ Hl) as [Hl' | He].
    + destruct (IHp _ Hl') as [Hv | He]; auto.
      right. unfold spawned. cbn [run]. rewrite run_inflight.
      apply Exists_app. now left.
    + right. unfold spawned. cbn [run]. rewrite run_inflight.
      apply Exists_app. now right.
Qed.

Lemma effects_toplevel (s s' : AppState) : toplevel (effects s s').
Proof.
  unfold effects. apply toplevel_call.
  - destruct (same_user _ _); [apply toplevel_done |].
    destruct (currentUser s') as [u |]; cbn; [| apply toplevel_done].
    apply toplevel_handler. constructor.
  - destruct (View_eqb _ _); [apply toplevel_done |].
    destruct (view s'); [apply toplevel_done |].
    apply toplevel_handler. constructor.
Qed.

Lemma run_toplevel_invariant (p : Async) (w : World) :
  toplevel p -> invariant w -> invariant (run p w).
Proof.
  intros Hp [Hk Hl]. split.
  - rewrite run_inflight. apply Forall_app. split; trivial.
    now apply toplevel_spawns_known.
  - intros H. rewrite run_inflight. apply Exists_app.
    destruct (toplevel_raises_with_loader p w Hp H); auto.
Qed.

Lemma step_invariant (w : World) (e : Event) :
  invariant w -> invariant (step w e).
Proof.
  intros Hw. destruct e as [| e | i net]; cbn [step].
  - apply run_toplevel_invariant; trivial.
    unfold mount. cbn. apply toplevel_call.
    + apply toplevel_handler. apply handler_fetchUsers.
    + apply toplevel_call; apply toplevel_done.
  - unfold dispatch. apply run_toplevel_invariant.
    + apply effects_toplevel.
    + apply run_toplevel_invariant; trivial. apply onEvent_toplevel.
  - unfold settle. destruct (nth_error (inflight w) i) as [p |] eqn:E; trivial.
    destruct Hw as [Hk Hl].
    assert (Hp : known p).
    { eapply Forall_forall; [exact Hk |]. eapply nth_error_In; exact E. }
    destruct (remove_nth_split _ _ _ E) as (l1 & l2 & Hsplit & Hrm).
    rewrite Hsplit in Hk, Hl. rewrite Hrm.
    destruct (known_keeps_user_view p (net (p_req p))
                (mkWorld (app w) (l1 ++ l2) (sent w) (console w) (alerts w))
                Hp) as [Hcu Hv].
    rewrite dispatch_keep by assumption.
    apply Forall_app in Hk. destruct Hk as [Hk1 Hk2].
    inversion Hk2 as [| ? ? _ Hk2']; subst.
    split.
    + rewrite run_inflight. cbn [inflight].
      repeat (apply Forall_app; split); trivial.
      now apply known_spawns_known.
    + intros H. rewrite run_inflight. cbn [inflight].
      destruct (is_loader p) eqn:Ep.
      * rewrite (loader_lowers_flag p _ _ Hp Ep) in H. discriminate H.
      * apply Exists_app.
        destruct (other_raises_with_fetch p _ _ Hp Ep H) as [H' | H']; auto.
        left. cbn [app] in H'. specialize (Hl H').
        apply Exists_app in Hl. apply Exists_app.
        destruct Hl as [Hl | Hl]; auto.
        inversion Hl as [? ? Hx | ? ? Hx]; subst; auto.
        rewrite Ep in Hx. discriminate Hx.
Qed.

Lemma reachable_invariant (w : World) : reachable w -> invariant w.
Proof.
  intros [es ->]. induction es as [| e es IH] using rev_ind.
  - split; [constructor | discriminate].
  - rewrite steps_snoc. now apply step_invariant.
Qed.

(** The loading flag is never up for nothing: in every world of an
    execution where it is up, a fetch of the queue or a Generate request is
    in flight, and the handler of each of these lowers the flag when it
    resumes. *)
Theorem loading_has_request (w : World) :
  reachable w ->
  loading (app w) = true ->
  Exists (fun p => is_loader p = true) (inflight w).
Proof. intros H. now apply reachable_invariant. Qed.

Lemma loading_has_request_witness :
  Exists (fun p => is_loader p = true)
    (inflight (steps initialWorld
                 [Mount;
                  Settle 0 (answer [Kyle; Emily] (mkDashboard [] [] [] [])
                                   [] None);
                  Input (ClickProfile 0)])).
Proof.
  apply (loading_has_request
           (steps initialWorld
              [Mount;
               Settle 0 (answer [Kyle; Emily] (mkDashboard [] [] [] [])
                                [] None);
               Input (ClickProfile 0)])).
  - eexists. reflexivity.
  - reflexivity.
Defined.

(** No answer of the network changes the active user or the active view:
    in every world of an execution, whichever request settles, and however,
    both are what they were. *)
Theorem answers_keep_user_and_view (w : World) (i : nat) (net : Network) :
  reachable w ->
  currentUser (app (step w (Settle i net))) = currentUser (app w) /\
  view (app (step w (Settle i net))) = view (app w).
Proof.
  intros H. apply reachable_invariant in H. destruct H as [Hk _].
  cbn [step]. unfold settle.
  destruct (nth_error (inflight w) i) as [p |] eqn:E; auto.
  assert (Hp : known p).
  { eapply Forall_forall; [exact Hk |]. eapply nth_error_In; exact E. }
  destruct (known_keeps_user_view p (net (p_req p))
              (mkWorld (app w) (remove_nth i (inflight w)) (sent w)
                       (console w) (alerts w)) Hp) as [Hcu Hv].
  rewrite dispatch_keep by assumption. auto.
Qed.

Lemma answers_keep_user_and_view_witness :
  let w := steps initialWorld
             [Mount;
              Settle 0 (answer [Kyle; Emily] (mkDashboard [] [] [] [])
                               [] None);
              Input (ClickProfile 0)] in
  currentUser (app (step w (Settle 0 (failing (mkError None None))))) =
    currentUser (app w) /\
  view (app (step w (Settle 0 (failing (mkError None None))))) =
    view (app w).
Proof.
  apply (answers_keep_user_and_view
           (steps initialWorld
              [Mount;
               Settle 0 (answer [Kyle; Emily] (mkDashboard [] [] [] [])
                                [] None);
               Input (ClickProfile 0)])
           0 (failing (mkError None None))).
  eexists. reflexivity.
Defined.

(** ** The queue is consumed in order *)

Lemma decide_cons (net : Network) (w : World) (u : User) (n : Name)
  (rest : list Name) (d : Direction) :
  currentUser (app w) = Some u ->
  names (app w) = n :: rest ->
  net (PostSwipe (mkBody (u_id u) (n_id n) d)) = Fulfilled tt ->
  currentUser (app (decide net w d)) = Some u /\
  names (app (decide net w d)) = rest /\
  posted (sent (decide net w d)) =
    posted (sent w) ++ [mkBody (u_id u) (n_id n) d].
Proof.
  intros Hu Hn Hnet. unfold decide.
  destruct (submit_cons w u n rest d Hu Hn) as (k & Hs & Hok & _).
  rewrite Hs. cbn [step]. rewrite settle_last, Hnet, Hok, dispatch_popped.
  unfold posted.
  destruct (length_Z (n :: rest) <? 3); cbn; rewrite Hu, Hn;
    repeat split; rewrite ?flat_map_app; cbn; now rewrite ?app_nil_r.
Qed.

(** Decisions taken one after the other, each POST succeeding before the
    next decision, consume the queue from its head: as long as the refills
    they start have not been answered, the decisions posted are those of
    the candidates of the queue in its order, each with the active user,
    and the queue that is left is the rest. *)
Theorem decisions_follow_queue (net : Network) (ds : list Direction)
  (w : World) (u : User) :
  currentUser (app w) = Some u ->
  (forall b, net (PostSwipe b) = Fulfilled tt) ->
  (List.length ds <= List.length (names (app w)))%nat ->
  names (app (decide_all net w ds)) =
    skipn (List.length ds) (names (app w)) /\
  posted (sent (decide_all net w ds)) =
    posted (sent w) ++
    map (fun nd => mkBody (u_id u) (n_id (fst nd)) (snd nd))
        (combine (names (app w)) ds).
Proof.
  intros Hu Hnet. revert w Hu.
  induction ds as [| d ds IH]; intros w Hu Hlen.
  - cbn. rewrite combine_nil. cbn. now rewrite app_nil_r.
  - destruct (names (app w)) as [| n rest] eqn:Hn; [cbn in Hlen; lia |].
    destruct (decide_cons net w u n rest d Hu Hn (Hnet _))
      as (Hu' & Hn' & Hp').
    cbn [decide_all fold_left]. fold (decide_all net (decide net w d) ds).
    destruct (IH (decide net w d) Hu') as [IH1 IH2].
    { rewrite Hn'. cbn in Hlen. lia. }
    rewrite IH1, IH2, Hn', Hp'. cbn. now rewrite <- app_assoc.
Qed.

Lemma decisions_follow_queue_witness :
  names (app (decide_all (answer [] (mkDashboard [] [] [] []) [] None)
                (swiping Kyle [Ava; Liam; Noah]) [like; dislike])) =
    [Noah] /\
  posted (sent (decide_all (answer [] (mkDashboard [] [] [] []) [] None)
                  (swiping Kyle [Ava; Liam; Noah]) [like; dislike])) =
    [mkBody 1 10 like; mkBody 1 11 dislike].
Proof.
  apply (decisions_follow_queue
           (answer [] (mkDashboard [] [] [] []) [] None)
           [like; dislike] (swiping Kyle [Ava; Liam; Noah]) Kyle).
  - reflexivity.
  - reflexivity.
  - cbn. lia.
Defined.

Lemma front_card_only_witness :
  exists back,
    cards (app (swiping Kyle [Ava; Liam; Noah])) =
      back ++ [mkCard 10 "Ava"
                 (handleSwipe (Some Kyle) [Ava; Liam; Noah])] /\
    (List.length (cards (app (swiping Kyle [Ava; Liam; Noah]))) <= 2)%nat /\
    Forall (fun c => onSwipe c = noop) back /\
    forall i input w,
      (i < List.length back)%nat ->
      run (card_handler (cards (app (swiping Kyle [Ava; Liam; Noah])))
             i input) w = w.
Proof.
  apply (front_card_only (app (swiping Kyle [Ava; Liam; Noah])) Ava
           [Liam; Noah]).
  reflexivity.
Defined.
